(** * DingDingNews: a shallow embedding of [main.py]

    The program is a single script: it checks three secrets, fetches
    articles from a news search API, filters and deduplicates them,
    shuffles and truncates the survivors, and posts a markdown message to
    a signed DingTalk webhook URL.

    Conventions of the embedding.
    - A Python [str] is modelled by its UTF-8 byte sequence (a [string],
      one [ascii] per byte); [str.encode("utf-8")] is then the identity and
      string concatenation commutes with encoding.  [bytes] values are
      [string]s as well.  [str.strip] removes the white space characters
      of [str.isspace], those above 127 by their UTF-8 bytes.  [str.lower]
      is modelled on the ASCII range (bytes above 127 are left alone): no
      character outside ASCII lowers to one of the letters w, e, b, p, so
      the test of line 87 is the same.
    - Python integers are [Z]; 32-bit words of SHA-256 are [Z] reduced
      modulo [2^32].
    - A [datetime] is a point of the naive time line, counted in
      microseconds ([Z]); [timedelta(days=d)] is [d * 86400 * 10^6].
    - What the script does not compute itself (environment variables, HTTP
      exchanges, clock readings, random draws, [strptime]/[strftime]) is
      collected in a [World]; effects are threaded through an explicit
      state carrying the trace of events. *)

From Stdlib Require Import ZArith Ascii String List Lia.
From stdpp Require Import base gmap sets list strings pretty.

Set Warnings "-register-all".
Local Open Scope string_scope.
Local Open Scope list_scope.
Local Open Scope Z_scope.

(** ** Byte strings *)

Module Bytes.

Definition byte_of_ascii (c : ascii) : Z := Z.of_N (N_of_ascii c).
Definition ascii_of_byte (b : Z) : ascii := ascii_of_N (Z.to_N (b mod 256)).

Fixpoint to_list (s : string) : list Z :=
  match s with
  | EmptyString => []
  | String c r => byte_of_ascii c :: to_list r
  end.

Fixpoint of_list (l : list Z) : string :=
  match l with
  | [] => EmptyString
  | b :: r => String (ascii_of_byte b) (of_list r)
  end.

(** [n]-byte big-endian rendering of [x]. *)
Fixpoint big_endian (n : nat) (x : Z) : list Z :=
  match n with
  | O => []
  | S k => (Z.shiftr x (8 * Z.of_nat k)) mod 256 :: big_endian k x
  end.

End Bytes.

(** ** hashlib.sha256 (FIPS 180-4) *)

Module SHA256.

Definition mask32 : Z := 0xffffffff.
Definition add32 (x y : Z) : Z := (x + y) mod 2 ^ 32.
Definition rotr (n x : Z) : Z :=
  Z.lor (Z.shiftr x n) (Z.land (Z.shiftl x (32 - n)) mask32).
Definition shr (n x : Z) : Z := Z.shiftr x n.
Definition not32 (x : Z) : Z := Z.lxor x mask32.

Definition Ch (x y z : Z) : Z := Z.lxor (Z.land x y) (Z.land (not32 x) z).
Definition Maj (x y z : Z) : Z :=
  Z.lxor (Z.lxor (Z.land x y) (Z.land x z)) (Z.land y z).
Definition Sigma0 (x : Z) : Z := Z.lxor (Z.lxor (rotr 2 x) (rotr 13 x)) (rotr 22 x).
Definition Sigma1 (x : Z) : Z := Z.lxor (Z.lxor (rotr 6 x) (rotr 11 x)) (rotr 25 x).
Definition sigma0 (x : Z) : Z := Z.lxor (Z.lxor (rotr 7 x) (rotr 18 x)) (shr 3 x).
Definition sigma1 (x : Z) : Z := Z.lxor (Z.lxor (rotr 17 x) (rotr 19 x)) (shr 10 x).

(** The first 64 primes. *)
Definition primes : list Z :=
  [2; 3; 5; 7; 11; 13; 17; 19; 23; 29; 31; 37; 41; 43; 47; 53; 59; 61; 67; 71;
   73; 79; 83; 89; 97; 101; 103; 107; 109; 113; 127; 131; 137; 139; 149; 151;
   157; 163; 167; 173; 179; 181; 191; 193; 197; 199; 211; 223; 227; 229; 233;
   239; 241; 251; 257; 263; 269; 271; 277; 281; 283; 293; 307; 311].

(** The largest [r] below [2 ^ bits] with [r ^ 3 <= n], bit by bit. *)
Fixpoint cube_root (bits : nat) (n r : Z) : Z :=
  match bits with
  | O => r
  | S b =>
      let r' := r + 2 ^ Z.of_nat b in
      cube_root b n (if r' ^ 3 <=? n then r' else r)
  end.

(** First 32 bits of the fractional part of a root scaled by [2 ^ 32]. *)
Definition frac32 (scaled_root : Z) : Z := scaled_root mod 2 ^ 32.

(** Round constants: from the cube roots of the first 64 primes. *)
Definition K : list Z :=
  Eval vm_compute in
    List.map (fun p => frac32 (cube_root 40 (p * 2 ^ 96) 0)) primes.

(** The eight chaining words. *)
Record hash := Hash { ha : Z; hb : Z; hc : Z; hd : Z; he : Z; hf : Z; hg : Z; hh : Z }.

(** Initial value: from the square roots of the first 8 primes. *)
Definition H0 : hash :=
  Eval vm_compute in
    let h := fun p => frac32 (Z.sqrt (p * 2 ^ 64)) in
    Hash (h 2) (h 3) (h 5) (h 7) (h 11) (h 13) (h 17) (h 19).

(** Padding: the bit 1, zero bits up to 448 mod 512, the bit length on 64 bits. *)
Definition pad (msg : list Z) : list Z :=
  let len := Z.of_nat (length msg) in
  let zeros := Z.to_nat ((55 - len) mod 64) in
  msg ++ 0x80 :: repeat 0 zeros ++ Bytes.big_endian 8 (8 * len).

(** Big-endian 32-bit words of a byte sequence. *)
Fixpoint words (bs : list Z) : list Z :=
  match bs with
  | b0 :: b1 :: b2 :: b3 :: r =>
      (Z.lor (Z.shiftl b0 24) (Z.lor (Z.shiftl b1 16) (Z.lor (Z.shiftl b2 8) b3)))
      :: words r
  | _ => []
  end.

(** Message schedule; [rw] holds W(t-1), W(t-2), ... most recent first. *)
Fixpoint extend (n : nat) (rw : list Z) : list Z :=
  match n with
  | O => rw
  | S k =>
      let w2 := nth 1 rw 0 in
      let w7 := nth 6 rw 0 in
      let w15 := nth 14 rw 0 in
      let w16 := nth 15 rw 0 in
      extend k (add32 (add32 (add32 (sigma1 w2) w7) (sigma0 w15)) w16 :: rw)
  end.

Definition schedule (block : list Z) : list Z := rev (extend 48 (rev block)).

Definition round (s : hash) (kw : Z * Z) : hash :=
  let '(k, w) := kw in
  let t1 := add32 (add32 (add32 (add32 (hh s) (Sigma1 (he s))) (Ch (he s) (hf s) (hg s))) k) w in
  let t2 := add32 (Sigma0 (ha s)) (Maj (ha s) (hb s) (hc s)) in
  Hash (add32 t1 t2) (ha s) (hb s) (hc s) (add32 (hd s) t1) (he s) (hf s) (hg s).

Definition compress (h : hash) (block : list Z) : hash :=
  let s := fold_left round (combine K (schedule block)) h in
  Hash (add32 (ha h) (ha s)) (add32 (hb h) (hb s)) (add32 (hc h) (hc s))
       (add32 (hd h) (hd s)) (add32 (he h) (he s)) (add32 (hf h) (hf s))
       (add32 (hg h) (hg s)) (add32 (hh h) (hh s)).

Fixpoint blocks (n : nat) (ws : list Z) (h : hash) : hash :=
  match n with
  | O => h
  | S k => blocks k (skipn 16 ws) (compress h (firstn 16 ws))
  end.

Definition digest (msg : list Z) : list Z :=
  let ws := words (pad msg) in
  let h := blocks (length ws / 16) ws H0 in
  flat_map (Bytes.big_endian 4)
    [ha h; hb h; hc h; hd h; he h; hf h; hg h; hh h].

End SHA256.

(** ** hmac.new(key, msg, hashlib.sha256).digest() (RFC 2104) *)

Module HMAC.

Definition block_size : nat := 64.

Definition block_key (key : list Z) : list Z :=
  let k := if (block_size <? length key)%nat then SHA256.digest key else key in
  k ++ repeat 0 (block_size - length k).

Definition xor_with (c : Z) (l : list Z) : list Z := List.map (Z.lxor c) l.

Definition sha256 (key msg : list Z) : list Z :=
  let k := block_key key in
  SHA256.digest (xor_with 0x5c k ++ SHA256.digest (xor_with 0x36 k ++ msg)).

End HMAC.

(** ** base64.b64encode *)

Module Base64.

Definition alphabet : list ascii :=
  list_ascii_of_string
    "ABCDEFGHIJKLMNOPQRSTUVWXYZabcdefghijklmnopqrstuvwxyz0123456789+/".

Definition sextet (i : Z) : ascii := nth (Z.to_nat i) alphabet "A"%char.
Definition pad_char : ascii := "="%char.

Fixpoint encode (bs : list Z) : string :=
  match bs with
  | [] => EmptyString
  | [b0] =>
      String (sextet (Z.shiftr b0 2))
     (String (sextet (Z.shiftl (Z.land b0 3) 4))
     (String pad_char (String pad_char EmptyString)))
  | [b0; b1] =>
      String (sextet (Z.shiftr b0 2))
     (String (sextet (Z.lor (Z.shiftl (Z.land b0 3) 4) (Z.shiftr b1 4)))
     (String (sextet (Z.shiftl (Z.land b1 15) 2))
     (String pad_char EmptyString)))
  | b0 :: b1 :: b2 :: r =>
      String (sextet (Z.shiftr b0 2))
     (String (sextet (Z.lor (Z.shiftl (Z.land b0 3) 4) (Z.shiftr b1 4)))
     (String (sextet (Z.lor (Z.shiftl (Z.land b1 15) 2) (Z.shiftr b2 6)))
     (String (sextet (Z.land b2 63)) (encode r))))
  end.

Definition b64encode (s : string) : string := encode (Bytes.to_list s).

End Base64.

(** ** urllib.parse.quote and quote_plus *)

Module Urllib.

Definition hex_digit (n : Z) : ascii :=
  nth (Z.to_nat n) (list_ascii_of_string "0123456789ABCDEF") "0"%char.

Definition is_alnum (b : Z) : bool :=
  ((65 <=? b) && (b <=? 90)) || ((97 <=? b) && (b <=? 122))
  || ((48 <=? b) && (b <=? 57)).

(** [_ALWAYS_SAFE]: letters, digits and [_.-~]. *)
Definition always_safe (b : Z) : bool :=
  is_alnum b || (b =? 95) || (b =? 46) || (b =? 45) || (b =? 126).

Definition in_safe (safe : string) (b : Z) : bool :=
  bool_decide (b ∈ Bytes.to_list safe).

Fixpoint quote_from_bytes (safe : string) (bs : list Z) : string :=
  match bs with
  | [] => EmptyString
  | b :: r =>
      if always_safe b || in_safe safe b
      then String (Bytes.ascii_of_byte b) (quote_from_bytes safe r)
      else String "%"%char
            (String (hex_digit (Z.shiftr b 4))
            (String (hex_digit (Z.land b 15)) (quote_from_bytes safe r)))
  end.

Definition quote (s safe : string) : string :=
  quote_from_bytes safe (Bytes.to_list s).

Fixpoint replace_space_plus (s : string) : string :=
  match s with
  | EmptyString => EmptyString
  | String c r =>
      String (if Ascii.eqb c " "%char then "+"%char else c) (replace_space_plus r)
  end.

Definition has_space (s : string) : bool :=
  bool_decide (32 ∈ Bytes.to_list s).

Definition quote_plus (s : string) : string :=
  if has_space s then replace_space_plus (quote s " ") else quote s "".

End Urllib.

(** ** Python text operations *)

Module Str.

(** The characters below 128 for which [str.isspace] holds: TAB..CR,
    FS..US, space. *)
Definition is_space (c : ascii) : bool :=
  let b := Bytes.byte_of_ascii c in
  ((9 <=? b) && (b <=? 13)) || ((28 <=? b) && (b <=? 32)).

(** The other characters for which [str.isspace] holds, by their UTF-8
    bytes: U+0085 and U+00A0 take two bytes; U+1680, U+2000..U+200A,
    U+2028, U+2029, U+202F, U+205F and U+3000 take three. *)
Definition is_space2 (c d : ascii) : bool :=
  let x := Bytes.byte_of_ascii c in
  let y := Bytes.byte_of_ascii d in
  (x =? 0xC2) && ((y =? 0x85) || (y =? 0xA0)).

Definition is_space3 (c d e : ascii) : bool :=
  let x := Bytes.byte_of_ascii c in
  let y := Bytes.byte_of_ascii d in
  let z := Bytes.byte_of_ascii e in
  ((x =? 0xE1) && (y =? 0x9A) && (z =? 0x80))
  || ((x =? 0xE2) && (y =? 0x80)
      && (((0x80 <=? z) && (z <=? 0x8A))
          || (z =? 0xA8) || (z =? 0xA9) || (z =? 0xAF)))
  || ((x =? 0xE2) && (y =? 0x81) && (z =? 0x9F))
  || ((x =? 0xE3) && (y =? 0x80) && (z =? 0x80)).

(** The text is one white space character. *)
Definition is_space_char (s : string) : bool :=
  match s with
  | String c EmptyString => is_space c
  | String c (String d EmptyString) => is_space2 c d
  | String c (String d (String e EmptyString)) => is_space3 c d e
  | _ => false
  end.

Definition lower_char (c : ascii) : ascii :=
  let b := Bytes.byte_of_ascii c in
  if (65 <=? b) && (b <=? 90) then Bytes.ascii_of_byte (b + 32) else c.

Fixpoint lower (s : string) : string :=
  match s with
  | EmptyString => EmptyString
  | String c r => String (lower_char c) (lower r)
  end.

(** [str.lstrip()]: the white space characters at the start go, one
    character (one, two or three bytes) at a time. *)
Fixpoint lstrip (s : string) : string :=
  match s with
  | EmptyString => EmptyString
  | String c r =>
      if is_space c then lstrip r else
      match r with
      | String d r2 =>
          if is_space2 c d then lstrip r2 else
          match r2 with
          | String e r3 => if is_space3 c d e then lstrip r3 else s
          | EmptyString => s
          end
      | EmptyString => s
      end
  end.

(** [str.rstrip()], from the right: what is left of the text after a byte
    is dropped with that byte when the two make up one white space
    character. *)
Fixpoint rstrip (s : string) : string :=
  match s with
  | EmptyString => EmptyString
  | String c r =>
      let t := String c (rstrip r) in
      if is_space_char t then EmptyString else t
  end.

Definition strip (s : string) : string := rstrip (lstrip s).

(** [needle in hay]. *)
Fixpoint contains (needle hay : string) : bool :=
  if String.prefix needle hay then true
  else match hay with
       | EmptyString => false
       | String _ r => contains needle r
       end.

Definition nonempty (s : string) : bool :=
  match s with EmptyString => false | _ => true end.

Definition is_continuation (c : ascii) : bool :=
  Z.land (Bytes.byte_of_ascii c) 0xC0 =? 0x80.

(** The characters of a text: a lead byte with its continuation bytes. *)
Fixpoint chars (s : string) : list string :=
  match s with
  | EmptyString => []
  | String c r =>
      match chars r with
      | (String d _ as h) :: t =>
          if is_continuation d then String c h :: t
          else String c EmptyString :: h :: t
      | t => String c EmptyString :: t
      end
  end.

(** [sep.join(parts)]. *)
Fixpoint join (sep : string) (parts : list string) : string :=
  match parts with
  | [] => EmptyString
  | [p] => p
  | p :: r => p +:+ sep +:+ join sep r
  end.

Definition newline : string := String "010"%char EmptyString.

End Str.

(** ** Values decoded from JSON *)

(** Numbers are integers; a JSON number with a fraction or an exponent
    (a Python [float]) is outside the model. *)
Inductive json : Type :=
| JNull
| JBool (b : bool)
| JNum (n : Z)
| JStr (s : string)
| JArr (items : list json)
| JObj (members : list (string * json)).

(** The members of an object in document order; a repeated name keeps
    its last value, as [json.loads] builds the [dict]. *)
Fixpoint dict_get (k : string) (members : list (string * json)) : option json :=
  match members with
  | [] => None
  | (k', v) :: r =>
      match dict_get k r with
      | Some x => Some x
      | None => if String.eqb k' k then Some v else None
      end
  end.

(** Distinct member names, in order of first occurrence. *)
Fixpoint dict_keys (members : list (string * json)) : list string :=
  match members with
  | [] => []
  | (k, _) :: r => k :: List.filter (fun k' => negb (String.eqb k k')) (dict_keys r)
  end.

(** [bool(v)]. *)
Definition truthy (v : json) : bool :=
  match v with
  | JNull => false
  | JBool b => b
  | JNum n => negb (n =? 0)
  | JStr s => Str.nonempty s
  | JArr l => match l with [] => false | _ => true end
  | JObj m => match m with [] => false | _ => true end
  end.

(** Keys of a Python [set]: [True == 1], so a boolean hashes as its integer. *)
Definition hkey : Type := option (Z + string).

(** The key of a hashable value. *)
Definition hash_key (v : json) : option hkey :=
  match v with
  | JStr s => Some (Some (inr s))
  | JNum n => Some (Some (inl n))
  | JBool b => Some (Some (inl (if b then 1 else 0)))
  | JNull => Some None
  | JArr _ | JObj _ => None
  end.

Inductive exn : Type :=
| ValueError
| AttributeError
| TypeError
| IndexError
| JSONDecodeError
| RequestException.

(** ** The world and the effects *)

Record response : Type := Response {
  status_code : Z;
  text : string;
  json_body : option json   (* [None]: [response.json()] raises *)
}.

(** The JSON document posted to the webhook. *)
Record payload : Type := Payload {
  msgtype : string;
  markdown_title : string;
  markdown_text : string
}.

(** The dict appended to [all_news]. *)
Record news_item : Type := NewsItem {
  title : json;
  description : json;
  url : json;
  image : string;
  published : string;
  published_dt : Z;
  source : json;
  region : string
}.

(** How one iteration of the loop over articles ended: by which
    [continue], or by reaching [all_news.append]. *)
Inductive verdict : Type :=
| NoTimestamp     (* line 67 *)
| BadTimestamp    (* line 71 *)
| TooOld          (* line 74 *)
| NoUrl           (* line 78, [not url_link] *)
| SeenUrl         (* line 78, [url_link in seen_links] *)
| WebpImage       (* line 88 *)
| Kept.           (* line 91 *)

(** One constructor per [print] site, with the values it interpolates. *)
Inductive message : Type :=
| MsgFetching (keyword : string)
| MsgFetchFailed (body : string)
| MsgFetched (count : nat) (days : Z)
| MsgRecent (count : nat)
| MsgNothingToSend
| MsgNewsDump (news : list news_item)
| MsgPushStatus (status : Z) (body : string)
| MsgTotal (count : nat)
| MsgItem (i : nat) (item : news_item).

(** What a run leaves behind, in order.  [Visited] is bookkeeping of the
    embedding, not an effect of the script: it records that the iteration
    on [article] came to its end, and how. *)
Inductive event : Type :=
| Print (m : message)
| HttpGet (target : string)
| HttpPost (target : string) (headers : list (string * string)) (body : payload)
| Visited (article : json) (v : verdict).

(** Everything the script obtains from outside.  Clock readings, random
    draws and HTTP exchanges are indexed by their rank in the run. *)
Record World : Type := {
  getenv : string -> option string;       (* after [load_dotenv()] *)
  requests_get : nat -> string -> option response;   (* [None]: raises *)
  requests_post :
    nat -> string -> list (string * string) -> payload -> option response;
  utcnow : nat -> Z;                      (* [datetime.utcnow()] *)
  time_ms : nat -> Z;                     (* [round(time.time() * 1000)] *)
  random_draw : nat -> nat;
  strptime : string -> option Z;          (* format [%Y-%m-%dT%H:%M:%SZ] *)
  strftime : Z -> string;                 (* format [%Y-%m-%d %H:%M] *)
  repr : json -> string                   (* [str()] of a list or dict *)
}.

Record state : Type := State {
  clock_reads : nat;
  draws : nat;
  requests : nat;
  trace : list event
}.

Definition initial : state := State 0 0 0 [].

Definition M (A : Type) : Type := state -> state * (exn + A).

Definition ret {A} (a : A) : M A := fun s => (s, inr a).
Definition raise {A} (e : exn) : M A := fun s => (s, inl e).
Definition bind {A B} (m : M A) (k : A -> M B) : M B :=
  fun s =>
    match m s with
    | (s', inr a) => k a s'
    | (s', inl e) => (s', inl e)
    end.

Notation "'let*' x ':=' m 'in' k" := (bind m (fun x => k))
  (at level 10, x name, m at level 100, k at level 200).
Notation "'do' m 'then' k" := (bind m (fun _ => k))
  (at level 10, m at level 100, k at level 200).

Definition record (e : event) (s : state) : state :=
  State (clock_reads s) (draws s) (requests s) (trace s ++ [e]).
Definition tick (s : state) : state :=
  State (S (clock_reads s)) (draws s) (requests s) (trace s).
Definition drawn (s : state) : state :=
  State (clock_reads s) (S (draws s)) (requests s) (trace s).
Definition requested (e : event) (s : state) : state :=
  State (clock_reads s) (draws s) (S (requests s)) (trace s ++ [e]).

Definition emit (e : event) : M unit := fun s => (record e s, inr tt).
Definition print (m : message) : M unit := emit (Print m).

Definition timedelta (days : Z) : Z := days * 86400 * 1000000.

(** ** Configuration (lines 14-31) *)

Record config : Type := Config {
  NEWSAPI_KEY : string;
  DINGTALK_WEBHOOK : string;
  DINGTALK_SECRET : string
}.

Definition KEYWORDS : list string := ["sewing thread"].
Definition DAYS_FILTER : Z := 360.
Definition NEWS_LIMIT : nat := 3.

(** Truth value of what [os.getenv] returns: [None] and [""] are false. *)
Definition env_truthy (v : option string) : bool :=
  match v with
  | None => false
  | Some s => Str.nonempty s
  end.

Definition load_config (w : World) : M config :=
  let k := getenv w "NEWSAPI_KEY" in
  let h := getenv w "DINGTALK_WEBHOOK" in
  let x := getenv w "DINGTALK_SECRET" in
  if negb (forallb env_truthy [k; h; x]) then raise ValueError
  else ret (Config (default "" k) (default "" h) (default "" x)).

(** ** The program *)

Section Program.

Context (w : World).

Definition read_utcnow : M Z :=
  fun s => (tick s, inr (utcnow w (clock_reads s))).
Definition read_time_ms : M Z :=
  fun s => (tick s, inr (time_ms w (clock_reads s))).

(** [random._randbelow(n)]: some number below [n]. *)
Definition randbelow (n : nat) : M nat :=
  fun s => (drawn s, inr (random_draw w (draws s) mod n)%nat).

Definition http_get (target : string) : M response :=
  fun s =>
    let s' := requested (HttpGet target) s in
    match requests_get w (requests s) target with
    | Some r => (s', inr r)
    | None => (s', inl RequestException)
    end.

Definition http_post (target : string) (headers : list (string * string))
    (body : payload) : M response :=
  fun s =>
    let s' := requested (HttpPost target headers body) s in
    match requests_post w (requests s) target headers body with
    | Some r => (s', inr r)
    | None => (s', inl RequestException)
    end.

(** [d.get(k, dflt)]; only a dict has the method. *)
Definition py_get (d : json) (k : string) (dflt : json) : M json :=
  match d with
  | JObj members => ret (default dflt (dict_get k members))
  | _ => raise AttributeError
  end.

(** [response.json()]. *)
Definition response_json (r : response) : M json :=
  match json_body r with
  | Some v => ret v
  | None => raise JSONDecodeError
  end.

(** [len(v)]. *)
Definition py_len (v : json) : M nat :=
  match v with
  | JArr l => ret (length l)
  | JStr s => ret (length (Str.chars s))
  | JObj m => ret (length (dict_keys m))
  | _ => raise TypeError
  end.

(** The elements [for article in v] runs over. *)
Definition py_iter (v : json) : M (list json) :=
  match v with
  | JArr l => ret l
  | JStr s => ret (JStr <$> Str.chars s)
  | JObj m => ret (JStr <$> dict_keys m)
  | _ => raise TypeError
  end.

(** [hash(v)] under [set] membership: lists and dicts are unhashable. *)
Definition py_hash (v : json) : M hkey :=
  match hash_key v with
  | Some k => ret k
  | None => raise TypeError
  end.

(** [str(v)], as an f-string interpolates it. *)
Definition py_str (v : json) : string :=
  match v with
  | JStr s => s
  | JNull => "None"
  | JBool true => "True"
  | JBool false => "False"
  | JNum n => pretty n
  | _ => repr w v
  end.

(** *** sign_url (lines 34-40) *)

Section WithConfig.

Context (cfg : config).

Definition sign_url : M string :=
  let* ms := read_time_ms in
  let timestamp := pretty ms in
  let secret_enc := Bytes.to_list (DINGTALK_SECRET cfg) in
  let string_to_sign := timestamp +:+ Str.newline +:+ DINGTALK_SECRET cfg in
  let hmac_code :=
    Bytes.of_list (HMAC.sha256 secret_enc (Bytes.to_list string_to_sign)) in
  let sign := Urllib.quote_plus (Base64.b64encode hmac_code) in
  ret (DINGTALK_WEBHOOK cfg +:+ "&timestamp=" +:+ timestamp +:+ "&sign=" +:+ sign).

(** *** fetch_news (lines 43-110) *)

(** The locals [seen_links] and [all_news]. *)
Record locals : Type := Locals {
  seen_links : gset hkey;
  all_news : list news_item
}.

(** [datetime.strptime(published_at, ...)] under [try]: every exception,
    the [TypeError] of a non-string included, is a failed parse. *)
Definition parse_published (published_at : json) : option Z :=
  match published_at with
  | JStr s => strptime w s
  | _ => None
  end.

(** Lines 65-100: the body of the loop over articles. *)
Definition article_step (article : json) (loc : locals) : M (locals * verdict) :=
  let* published_at := py_get article "publishedAt" JNull in
  if negb (truthy published_at) then ret (loc, NoTimestamp) else
  match parse_published published_at with
  | None => ret (loc, BadTimestamp)
  | Some published =>
      let* now := read_utcnow in
      if published <? now - timedelta DAYS_FILTER then ret (loc, TooOld) else
      let* url_link := py_get article "url" JNull in
      if negb (truthy url_link) then ret (loc, NoUrl) else
      let* key := py_hash url_link in
      if bool_decide (key ∈ seen_links loc) then ret (loc, SeenUrl) else
      let seen := {[ key ]} ∪ seen_links loc in
      let* src := py_get article "source" (JObj []) in
      let* source_name := py_get src "name" (JStr "") in
      let* image_url := py_get article "urlToImage" JNull in
      let image :=
        match image_url with
        | JStr s => if Str.nonempty (Str.strip s) then Str.strip s else ""
        | _ => ""
        end in
      if Str.contains "webp" (Str.lower image)
      then ret (Locals seen (all_news loc), WebpImage) else
      let* title := py_get article "title" (JStr "") in
      let* description := py_get article "description" JNull in
      ret (Locals seen
             (all_news loc ++
              [ NewsItem title
                  (if truthy description then description else JStr "")
                  url_link image (strftime w published) published
                  source_name "" ]),
           Kept)
  end.

Fixpoint for_articles (articles : list json) (loc : locals) : M locals :=
  match articles with
  | [] => ret loc
  | article :: rest =>
      let* r := article_step article loc in
      do emit (Visited article r.2) then
      for_articles rest r.1
  end.

Definition news_url (keyword : string) : string :=
  "https://newsapi.org/v2/everything?" +:+
  "q=" +:+ Urllib.quote keyword "/" +:+ "&" +:+
  "apiKey=" +:+ NEWSAPI_KEY cfg +:+ "&" +:+
  "pageSize=50&" +:+
  "sortBy=publishedAt".

(** Lines 47-100: the loop over keywords. *)
Fixpoint for_keywords (keywords : list string) (loc : locals) : M locals :=
  match keywords with
  | [] => ret loc
  | keyword :: rest =>
      do print (MsgFetching keyword) then
      let* response := http_get (news_url keyword) in
      if negb (status_code response =? 200) then
        do print (MsgFetchFailed (text response)) then
        for_keywords rest loc
      else
        let* body := response_json response in
        let* articles := py_get body "articles" (JArr []) in
        let* n := py_len articles in
        do print (MsgFetched n DAYS_FILTER) then
        let* items := py_iter articles in
        let* loc' := for_articles items loc in
        for_keywords rest loc'
  end.

(** Line 103: the comprehension reads the clock for every element. *)
Fixpoint recent_only (news : list news_item) : M (list news_item) :=
  match news with
  | [] => ret []
  | n :: rest =>
      let* now := read_utcnow in
      let* tail := recent_only rest in
      ret (if published_dt n >=? now - timedelta 2 then n :: tail else tail)
  end.

(** [random.shuffle]: for [i] from [len(x) - 1] down to [1], swap [x[i]]
    with [x[j]] for a drawn [j <= i]. *)
Fixpoint shuffle_down {A} (i : nat) (x : list A) : M (list A) :=
  match i with
  | O => ret x
  | S i' =>
      let* j := randbelow (i + 1) in
      match x !! i, x !! j with
      | Some xi, Some xj => shuffle_down i' (<[j := xi]> (<[i := xj]> x))
      | _, _ => raise IndexError
      end
  end.

Definition shuffle {A} (x : list A) : M (list A) :=
  shuffle_down (length x - 1) x.

Definition fetch_news : M (list news_item) :=
  let* loc := for_keywords KEYWORDS (Locals ∅ []) in
  let* recent_news := recent_only (all_news loc) in
  do print (MsgRecent (length recent_news)) then
  let* shuffled := shuffle recent_news in
  let selected_news := take NEWS_LIMIT shuffled in
  ret selected_news.

(** *** send_to_dingtalk (lines 114-143) *)

Definition block (i : nat) (item : news_item) : string :=
  Str.strip
    (" " +:+ pretty i +:+ ". [" +:+ py_str (title item) +:+ "](" +:+
     py_str (url item) +:+ ")" +:+ Str.newline +:+ Str.newline +:+
     "🌐 来源：" +:+ py_str (source item) +:+
     (if Str.nonempty (region item) then " | 地区：" +:+ region item else "") +:+
     Str.newline +:+
     "🕘 时间：" +:+ published item +:+ Str.newline +:+
     (if Str.nonempty (image item) then "![图片](" +:+ image item +:+ ")" else "") +:+
     Str.newline).

Definition separator : string :=
  Str.newline +:+ Str.newline +:+ "---" +:+ Str.newline +:+ Str.newline.

Definition send_to_dingtalk (news : list news_item) : M unit :=
  match news with
  | [] => print MsgNothingToSend
  | _ =>
      do print (MsgNewsDump news) then
      let content_blocks := imap (fun i item => block (S i) item) news in
      let markdown_text := Str.join separator content_blocks in
      let data := Payload "markdown" "📢最新速览" markdown_text in
      let* webhook_url := sign_url in
      let headers := [("Content-Type", "application/json")] in
      let* response := http_post webhook_url headers data in
      print (MsgPushStatus (status_code response) (text response))
  end.

(** *** The main block (lines 146-152) *)

Fixpoint print_items (i : nat) (news : list news_item) : M unit :=
  match news with
  | [] => ret tt
  | item :: rest => do print (MsgItem i item) then print_items (S i) rest
  end.

Definition main : M unit :=
  let* news := fetch_news in
  let total_news_count := length news in
  do print (MsgTotal total_news_count) then
  do print_items 1 news then
  send_to_dingtalk news.

End WithConfig.

(** The script from top to bottom. *)
Definition script : M unit :=
  let* cfg := load_config w in
  main cfg.

End Program.

(** ** A concrete calendar, for worked scenarios

    [Iso.strptime] is the value of [datetime.strptime] on zero-padded
    ASCII timestamps [YYYY-MM-DDTHH:MM:SSZ]; [Iso.strftime] renders
    [%Y-%m-%d %H:%M].  Days are counted as [datetime.toordinal] does. *)

Module Iso.

Definition is_leap (y : Z) : bool :=
  (y mod 4 =? 0) && (negb (y mod 100 =? 0) || (y mod 400 =? 0)).

Definition days_in_month (y m : Z) : Z :=
  if m =? 2 then (if is_leap y then 29 else 28)
  else if (m =? 4) || (m =? 6) || (m =? 9) || (m =? 11) then 30 else 31.

Definition days_before_year (y : Z) : Z :=
  let p := y - 1 in p * 365 + p / 4 - p / 100 + p / 400.

Definition days_before_month (y m : Z) : Z :=
  fold_right Z.add 0
    (List.map (days_in_month y) (List.map Z.of_nat (seq 1 (Z.to_nat (m - 1))))).

Definition ymd2ord (y m d : Z) : Z :=
  days_before_year y + days_before_month y m + d.

Definition micros (y m d hh mm ss : Z) : Z :=
  (((ymd2ord y m d * 24 + hh) * 60 + mm) * 60 + ss) * 1000000.

Definition digit (c : ascii) : option Z :=
  let b := Bytes.byte_of_ascii c in
  if (48 <=? b) && (b <=? 57) then Some (b - 48) else None.

Definition number (cs : list ascii) : option Z :=
  fold_left (fun acc c =>
               match acc, digit c with
               | Some a, Some d => Some (a * 10 + d)
               | _, _ => None
               end) cs (Some 0).

Definition is_char (cs : list ascii) (i : nat) (c : ascii) : bool :=
  match cs !! i with
  | Some c' => Ascii.eqb c c'
  | None => false
  end.

Definition digits_at (cs : list ascii) (from len : nat) : option Z :=
  number (firstn len (skipn from cs)).

Definition strptime (s : string) : option Z :=
  let cs := list_ascii_of_string s in
  if negb ((length cs =? 20)%nat
           && is_char cs 4 "-" && is_char cs 7 "-" && is_char cs 10 "T"
           && is_char cs 13 ":" && is_char cs 16 ":" && is_char cs 19 "Z")
  then None
  else
    match digits_at cs 0 4, digits_at cs 5 2, digits_at cs 8 2,
          digits_at cs 11 2, digits_at cs 14 2, digits_at cs 17 2 with
    | Some y, Some m, Some d, Some hh, Some mm, Some ss =>
        if (1 <=? y) && (1 <=? m) && (m <=? 12)
           && (1 <=? d) && (d <=? days_in_month y m)
           && (hh <=? 23) && (mm <=? 59) && (ss <=? 59)
        then Some (micros y m d hh mm ss)
        else None
    | _, _, _, _, _, _ => None
    end.

(** [(year, month, day)] of an ordinal, as [datetime._ord2ymd]. *)
Definition ord2ymd (ordinal : Z) : Z * Z * Z :=
  let n := ordinal - 1 in
  let n400 := n / 146097 in let n := n mod 146097 in
  let n100 := n / 36524 in let n := n mod 36524 in
  let n4 := n / 1461 in let n := n mod 1461 in
  let n1 := n / 365 in let n := n mod 365 in
  let year := n400 * 400 + 1 + n100 * 100 + n4 * 4 + n1 in
  if (n1 =? 4) || (n100 =? 4) then (year - 1, 12, 31)
  else
    let month := Z.shiftr (n + 50) 5 in
    let preceding := days_before_month year month in
    if preceding >? n
    then (year, month - 1, n - (preceding - days_in_month year (month - 1)) + 1)
    else (year, month, n - preceding + 1).

Definition pad_left (width : nat) (s : string) : string :=
  string_of_list_ascii (repeat "0"%char (width - String.length s)) +:+ s.

Definition strftime (t : Z) : string :=
  let minutes := t / 60000000 in
  let '(y, m, d) := ord2ymd (minutes / 1440) in
  pad_left 4 (pretty y) +:+ "-" +:+ pad_left 2 (pretty m) +:+ "-" +:+
  pad_left 2 (pretty d) +:+ " " +:+ pad_left 2 (pretty (minutes mod 1440 / 60)) +:+
  ":" +:+ pad_left 2 (pretty (minutes mod 60)).

End Iso.

(** ** Worked scenarios *)

Module Scenario.

Definition cfg : config :=
  Config "key" "https://oapi.dingtalk.com/robot/send?access_token=t" "testsecret".

(** 2024-03-11 12:00:00 UTC. *)
Definition noon : Z := Iso.micros 2024 3 11 12 0 0.

Definition article (link published_at : string) (more : list (string * json)) : json :=
  JObj (("url", JStr link) :: ("publishedAt", JStr published_at) :: more).

(** A world whose API answers every request with [status] and [articles];
    the clock advances by one millisecond per reading. *)
Definition world_of (status : Z) (articles : list json) : World := {|
  getenv := fun _ => Some "x";
  requests_get := fun _ _ =>
    Some (Response status "body" (Some (JObj [("status", JStr "ok");
                                              ("articles", JArr articles)])));
  requests_post := fun _ _ _ _ => Some (Response 200 "ok" None);
  utcnow := fun k => noon + 1000 * Z.of_nat k;
  time_ms := fun _ => 1700000000000;
  random_draw := fun k => k;
  strptime := Iso.strptime;
  strftime := Iso.strftime;
  repr := fun _ => "?"
|}.

(** Duplicates, a webp image, a null title, an article of ten days ago. *)
Definition mixed : list json :=
  [ article "https://n/1" "2024-03-11T08:00:00Z" [("title", JStr "first")];
    article "https://n/1" "2024-03-11T09:00:00Z" [("title", JStr "second")];
    article "https://n/2" "2024-03-11T07:00:00Z"
      [("urlToImage", JStr " https://img/a.WebP?x=1 ")];
    article "https://n/2" "2024-03-11T07:30:00Z"
      [("urlToImage", JStr "https://img/a.png")];
    article "https://n/3" "2024-03-10T23:00:00Z"
      [("title", JNull); ("description", JNull)];
    article "https://n/4" "2024-03-01T12:00:00Z" [("title", JStr "old")] ].

(** Five articles, all of ten days ago. *)
Definition stale : list json :=
  [ article "https://n/a" "2024-03-01T12:00:00Z" [];
    article "https://n/b" "2024-03-01T12:00:00Z" [];
    article "https://n/c" "2024-03-01T12:00:00Z" [];
    article "https://n/d" "2024-03-01T12:00:00Z" [];
    article "https://n/e" "2024-03-01T12:00:00Z" [] ].


Definition fresh : list json :=
  [ article "https://n/1" "2024-03-11T09:00:00Z" [("title", JStr "only")] ].

(** An article dated almost six years after [noon]. *)
Definition future : list json :=
  [ article "https://n/9" "2030-01-01T00:00:00Z" [("title", JStr "ahead")] ].

(** An answer without an [articles] member. *)
Definition bare_world : World := {|
  getenv := fun _ => Some "x";
  requests_get := fun _ _ =>
    Some (Response 200 "body" (Some (JObj [("status", JStr "ok")])));
  requests_post := fun _ _ _ _ => Some (Response 200 "ok" None);
  utcnow := fun k => noon + 1000 * Z.of_nat k;
  time_ms := fun _ => 1700000000000;
  random_draw := fun k => k;
  strptime := Iso.strptime;
  strftime := Iso.strftime;
  repr := fun _ => "?"
|}.

(** An environment in which [DINGTALK_SECRET] is set to the empty string. *)
Definition unconfigured_world : World := {|
  getenv := fun name => if String.eqb name "DINGTALK_SECRET" then Some "" else Some "x";
  requests_get := fun _ _ => None;
  requests_post := fun _ _ _ _ => None;
  utcnow := fun _ => noon;
  time_ms := fun _ => 1700000000000;
  random_draw := fun _ => O;
  strptime := Iso.strptime;
  strftime := Iso.strftime;
  repr := fun _ => "?"
|}.

End Scenario.

(** * Reading the program *)

(** ** What an article carries *)

Definition field (article : json) (k : string) (dflt : json) : json :=
  match article with
  | JObj members => default dflt (dict_get k members)
  | _ => dflt
  end.

Definition article_url (article : json) : json := field article "url" JNull.

Definition article_key (article : json) : option hkey :=
  hash_key (article_url article).

Definition article_image (article : json) : string :=
  match field article "urlToImage" JNull with
  | JStr s => Str.strip s
  | _ => ""
  end.

Definition item_key (n : news_item) : option hkey := hash_key (url n).

(** Two articles carry the same url when their urls are equal as Python
    values, that is, have the same key. *)
Definition same_url (a b : json) : Prop :=
  exists k, article_key a = Some k /\ article_key b = Some k.

(** [needle] occurs in [s] up to the case of ASCII letters. *)
Definition ci_contains (needle s : string) : Prop :=
  exists pre mid post, s = pre +:+ mid +:+ post /\ Str.lower mid = needle.

(** An iteration that got as far as the membership test of line 77. *)
Definition claimed (v : verdict) : Prop :=
  v = SeenUrl \/ v = WebpImage \/ v = Kept.

(** An iteration that ended before line 76. *)
Definition early (v : verdict) : Prop :=
  v = NoTimestamp \/ v = BadTimestamp \/ v = TooOld.

(** The articles visited, in order, with the way each visit ended. *)
Definition visits_of (t : list event) : list (json * verdict) :=
  omap (fun e => match e with Visited a v => Some (a, v) | _ => None end) t.

(** The events a computation added between [s] and [s']. *)
Definition events_since (s s' : state) : list event :=
  drop (length (trace s)) (trace s').

(** ** What an iteration does *)

Section Outcomes.

Context (w : World).

(** The candidate built from an article at lines 91-100. *)
Definition kept_item (a : json) (item : news_item) : Prop :=
  url item = article_url a
  /\ image item = article_image a
  /\ title item = field a "title" (JStr "")
  /\ description item =
       (let d := field a "description" JNull in if truthy d then d else JStr "")
  /\ parse_published w (field a "publishedAt" JNull) = Some (published_dt item)
  /\ published item = strftime w (published_dt item)
  /\ region item = "".

(** What one iteration does to the locals, by the way it ends. *)
Inductive step_outcome (a : json) (loc : locals) : locals -> verdict -> Prop :=
| out_early v :
    early v -> step_outcome a loc loc v
| out_no_url :
    truthy (article_url a) = false -> step_outcome a loc loc NoUrl
| out_seen k :
    truthy (article_url a) = true -> article_key a = Some k ->
    k ∈ seen_links loc ->
    step_outcome a loc loc SeenUrl
| out_webp k :
    truthy (article_url a) = true -> article_key a = Some k ->
    k ∉ seen_links loc ->
    Str.contains "webp" (Str.lower (article_image a)) = true ->
    step_outcome a loc (Locals ({[ k ]} ∪ seen_links loc) (all_news loc)) WebpImage
| out_kept k item :
    truthy (article_url a) = true -> article_key a = Some k ->
    k ∉ seen_links loc ->
    Str.contains "webp" (Str.lower (article_image a)) = false ->
    kept_item a item ->
    step_outcome a loc
      (Locals ({[ k ]} ∪ seen_links loc) (all_news loc ++ [item])) Kept.

(** A run of consecutive iterations. *)
Inductive visits : locals -> list (json * verdict) -> locals -> Prop :=
| visits_nil loc : visits loc [] loc
| visits_cons loc a v loc1 vs loc2 :
    step_outcome a loc loc1 v -> visits loc1 vs loc2 ->
    visits loc ((a, v) :: vs) loc2.

(** The events between two states, and the iterations among them. *)
Definition collects (loc : locals) (s s' : state) (r : exn + locals) : Prop :=
  exists evs loc_end,
    trace s' = trace s ++ evs
    /\ draws s' = draws s
    /\ (clock_reads s <= clock_reads s')%nat
    /\ visits loc (visits_of evs) loc_end
    /\ (forall loc', r = inr loc' -> loc_end = loc').

End Outcomes.

(** What the locals satisfy throughout. *)
Definition locals_ok (loc : locals) : Prop :=
  NoDup (item_key <$> all_news loc)
  /\ (forall n, n ∈ all_news loc ->
        exists k, item_key n = Some k /\ k ∈ seen_links loc)
  /\ (forall n, n ∈ all_news loc ->
        Str.contains "webp" (Str.lower (image n)) = false).

Definition visit_event (p : json * verdict) : event := Visited p.1 p.2.

(** ** Names used by the statements *)

(** The state in which the answer to the request for [kw] is examined. *)
Definition asked (cfg : config) (kw : string) (s : state) : state :=
  requested (HttpGet (news_url cfg kw)) (record (Print (MsgFetching kw)) s).

Definition required_secrets : list string :=
  ["NEWSAPI_KEY"; "DINGTALK_WEBHOOK"; "DINGTALK_SECRET"].

(** The signature of timestamp 1700000000000 under the secret [testsecret]. *)
Definition golden_sign : string :=
  "d043yCasNZ%2BKC1N0lrVg%2BAan0gEIKPvRfzRqMlUUwzk%3D".

(** A byte that is part of no white space character: not one of the
    characters of [Str.is_space], and not a byte of the UTF-8 form of one
    of the others. *)
Definition hard_char (c : ascii) : bool :=
  let b := Bytes.byte_of_ascii c in
  negb (Str.is_space c)
  && negb ((b =? 0xC2) || ((0xE1 <=? b) && (b <=? 0xE3))
           || ((0x80 <=? b) && (b <=? 0x8A))
           || (b =? 0x9A) || (b =? 0x9F) || (b =? 0xA0)
           || (b =? 0xA8) || (b =? 0xA9) || (b =? 0xAF)).

(** Every byte of the text is hard: ASCII letters, digits and punctuation
    are. *)
Fixpoint hard (s : string) : bool :=
  match s with
  | EmptyString => true
  | String c r => hard_char c && hard r
  end.

(** ** Names used by the further properties *)

Definition is_object (v : json) : bool :=
  match v with JObj _ => true | _ => false end.

Definition is_network (e : event) : bool :=
  match e with
  | HttpGet _ | HttpPost _ _ _ => true
  | _ => false
  end.

(** The HTTP exchanges among the events, in order. *)
Definition requests_of (t : list event) : list event := List.filter is_network t.

Definition is_kept (v : verdict) : bool :=
  match v with Kept => true | _ => false end.

(** The urls of the articles whose visit reached [all_news.append]. *)
Definition kept_urls (vs : list (json * verdict)) : list json :=
  article_url <$> (List.filter (fun p => is_kept p.2) vs).*1.

(** The text begins with a white space character. *)
Definition space_led (s : string) : bool :=
  match s with
  | String c r =>
      Str.is_space c
      || match r with
         | String d r2 =>
             Str.is_space2 c d
             || match r2 with
                | String e _ => Str.is_space3 c d e
                | EmptyString => false
                end
         | EmptyString => false
         end
  | EmptyString => false
  end.

(** The text ends with a white space character. *)
Definition space_ended (s : string) : Prop :=
  exists p q, s = p +:+ q /\ Str.is_space_char q = true.

(** A byte with which no white space character begins. *)
Definition shut_char (c : ascii) : bool :=
  let b := Bytes.byte_of_ascii c in
  negb (Str.is_space c)
  && negb ((b =? 0xC2) || ((0xE1 <=? b) && (b <=? 0xE3))).

(** A letter, a digit or the percent sign. *)
Definition plain_char (c : ascii) : bool :=
  Urllib.is_alnum (Bytes.byte_of_ascii c) || Ascii.eqb c "%".

(** Every character of the text satisfies [p]. *)
Fixpoint all_chars (p : ascii -> bool) (s : string) : bool :=
  match s with
  | EmptyString => true
  | String c r => p c && all_chars p r
  end.

(** A byte of base64 text: a letter, a digit, [+], [/] or [=]. *)
Definition base64_byte (b : Z) : bool :=
  Urllib.is_alnum b || (b =? 43) || (b =? 47) || (b =? 61).

Definition base64_char (c : ascii) : bool := base64_byte (Bytes.byte_of_ascii c).

(** The iteration on [a] gets to line 76 when the clock reads [now]: the
    timestamp is there, parses, and is not more than [DAYS_FILTER] days
    old. *)
Definition reaches_url (w : World) (a : json) (now : Z) : Prop :=
  truthy (field a "publishedAt" JNull) = true
  /\ exists t, parse_published w (field a "publishedAt" JNull) = Some t
               /\ now - timedelta DAYS_FILTER <= t.

(** The body [send_to_dingtalk] posts for a list of items. *)
Definition push_body (w : World) (news : list news_item) : payload :=
  Payload "markdown" "📢最新速览"
    (Str.join separator (imap (fun i item => block w (S i) item) news)).

Definition json_headers : list (string * string) :=
  [("Content-Type", "application/json")].

(** [None], a boolean or a number: a value without [len]. *)
Definition is_scalar (v : json) : bool :=
  match v with
  | JNull | JBool _ | JNum _ => true
  | _ => false
  end.

(** A world whose API answers with status 200 and [v] under [articles]. *)
Definition world_with_articles (v : json) : World := {|
  getenv := getenv Scenario.bare_world;
  requests_get := fun _ _ =>
    Some (Response 200 "body" (Some (JObj [("articles", v)])));
  requests_post := requests_post Scenario.bare_world;
  utcnow := utcnow Scenario.bare_world;
  time_ms := time_ms Scenario.bare_world;
  random_draw := random_draw Scenario.bare_world;
  strptime := strptime Scenario.bare_world;
  strftime := strftime Scenario.bare_world;
  repr := repr Scenario.bare_world
|}.

(** A character that stands for itself in a query value, or the percent
    sign: a letter, a digit, one of [_.-~/], or [%]. *)
Definition query_char (c : ascii) : bool :=
  let b := Bytes.byte_of_ascii c in
  Urllib.always_safe b || (b =? 47) || (b =? 37).

(** Two articles whose image is padded with white space above 127: a
    lone U+00A0, and an address between a space, U+3000 and U+00A0,
    line feed. *)
Definition padded_images : list json :=
  [ Scenario.article "https://n/5" "2024-03-11T10:00:00Z"
      [("urlToImage", JStr (Bytes.of_list [194; 160]))];
    Scenario.article "https://n/6" "2024-03-11T10:30:00Z"
      [("urlToImage",
        JStr (Bytes.of_list [32; 227; 128; 128] +:+ "https://img/a.png" +:+
              Bytes.of_list [194; 160; 10]))] ].

(** The request made for a keyword. *)
Definition get_for (cfg : config) (kw : string) : event := HttpGet (news_url cfg kw).

(** Between [s] and [s'] the first [j] of the keywords were asked for, one
    request each and in order, and nothing else was requested; all of
    them if the loop returned. *)
Definition asks {A} (cfg : config) (kws : list string) (s s' : state)
    (r : exn + A) : Prop :=
  exists evs j,
    trace s' = trace s ++ evs
    /\ requests s' = (requests s + j)%nat
    /\ (j <= length kws)%nat
    /\ requests_of evs = get_for cfg <$> take j kws
    /\ (forall a, r = inr a -> j = length kws).

(** ** Text *)

Module StrFacts.

Import Str.

#[local] Arguments String.append !_ _ / : simpl nomatch.

Lemma lower_app a b : lower (a +:+ b) = lower a +:+ lower b.
Proof. induction a as [|c a IH]; simpl; [reflexivity | by rewrite IH]. Qed.

Lemma prefix_app n b : String.prefix n (n +:+ b) = true.
Proof.
  induction n as [|c n IH]; simpl; [by destruct b |].
  destruct (ascii_dec c c); [exact IH | congruence].
Qed.

Lemma contains_eq n hay :
  contains n hay =
  if String.prefix n hay then true
  else match hay with
       | EmptyString => false
       | String _ r => contains n r
       end.
Proof. destruct hay; reflexivity. Qed.

Lemma contains_prefix n hay : String.prefix n hay = true -> contains n hay = true.
Proof. intros H. by rewrite contains_eq, H. Qed.

Lemma contains_cons n c hay : contains n hay = true -> contains n (String c hay) = true.
Proof. intros H. rewrite contains_eq, H. by destruct (String.prefix _ _). Qed.

Lemma contains_app n a b : contains n (a +:+ n +:+ b) = true.
Proof.
  induction a as [|c a IH]; simpl.
  - apply contains_prefix, prefix_app.
  - apply contains_cons, IH.
Qed.

(** *** White space characters and hard bytes *)

Lemma hard_not_space c : hard_char c = true -> is_space c = false.
Proof.
  unfold hard_char. intros H. apply andb_true_iff in H as [H _].
  by apply negb_true_iff in H.
Qed.

Lemma hard_not_first2 c d : hard_char c = true -> is_space2 c d = false.
Proof.
  unfold hard_char, is_space2, is_space.
  generalize (Bytes.byte_of_ascii c) (Bytes.byte_of_ascii d). intros x y H.
  destruct (_ && _) eqn:E in |- *; [lia | reflexivity].
Qed.

Lemma hard_not_second2 c d : hard_char d = true -> is_space2 c d = false.
Proof.
  unfold hard_char, is_space2, is_space.
  generalize (Bytes.byte_of_ascii c) (Bytes.byte_of_ascii d). intros x y H.
  destruct (_ && _) eqn:E in |- *; [lia | reflexivity].
Qed.

Lemma hard_not_first3 c d e : hard_char c = true -> is_space3 c d e = false.
Proof.
  unfold hard_char, is_space3, is_space.
  generalize (Bytes.byte_of_ascii c) (Bytes.byte_of_ascii d)
    (Bytes.byte_of_ascii e). intros x y z H.
  destruct (_ || _) eqn:E in |- *; [lia | reflexivity].
Qed.

Lemma hard_not_second3 c d e : hard_char d = true -> is_space3 c d e = false.
Proof.
  unfold hard_char, is_space3, is_space.
  generalize (Bytes.byte_of_ascii c) (Bytes.byte_of_ascii d)
    (Bytes.byte_of_ascii e). intros x y z H.
  destruct (_ || _) eqn:E in |- *; [lia | reflexivity].
Qed.

Lemma hard_not_third3 c d e : hard_char e = true -> is_space3 c d e = false.
Proof.
  unfold hard_char, is_space3, is_space.
  generalize (Bytes.byte_of_ascii c) (Bytes.byte_of_ascii d)
    (Bytes.byte_of_ascii e). intros x y z H.
  destruct (_ || _) eqn:E in |- *; [lia | reflexivity].
Qed.

(** No white space character begins with a hard byte. *)
Lemma space_char_hard_head c r :
  hard_char c = true -> is_space_char (String c r) = false.
Proof.
  intros H. destruct r as [|d [|e [|? ?]]]; simpl;
    auto using hard_not_space, hard_not_first2, hard_not_first3.
Qed.

(** No white space character has a hard byte after its first. *)
Lemma space_char_hard_inside c y m z :
  hard_char m = true -> is_space_char (String c (y +:+ String m z)) = false.
Proof.
  intros H. destruct y as [|y1 [|y2 y]]; simpl.
  - destruct z as [|e [|? ?]]; auto using hard_not_second2, hard_not_second3.
  - destruct z; auto using hard_not_third3.
  - by destruct y.
Qed.

(** *** [lstrip] *)

Lemma lstrip_hard_head c r :
  hard_char c = true -> lstrip (String c r) = String c r.
Proof.
  intros H. simpl. rewrite (hard_not_space c H).
  destruct r as [|d r]; [reflexivity |]. rewrite (hard_not_first2 c d H).
  destruct r as [|e r]; [reflexivity |]. by rewrite (hard_not_first3 c d e H).
Qed.

Lemma lstrip_keeps pre mid post :
  hard mid = true -> mid <> "" ->
  exists pre', lstrip (pre +:+ mid +:+ post) = pre' +:+ mid +:+ post.
Proof.
  intros Hs Hne. destruct mid as [|m mid]; [congruence |]. clear Hne.
  simpl in Hs. apply andb_true_iff in Hs as [Hm _].
  remember (String.length pre) as n eqn:Hn.
  assert (Hle : (String.length pre <= n)%nat) by lia. clear Hn.
  revert pre Hle. induction n as [|n IH]; intros pre Hle.
  { destruct pre; [| simpl in Hle; lia]. exists "".
    apply (lstrip_hard_head m _ Hm). }
  destruct pre as [|c pre].
  { exists "". apply (lstrip_hard_head m _ Hm). }
  simpl in Hle.
  change (String c pre +:+ String m mid +:+ post)
    with (String c (pre +:+ String m mid +:+ post)).
  cbn [lstrip].
  destruct (is_space c); [apply IH; lia |].
  destruct pre as [|d pre].
  { exists (String c ""). cbn. rewrite (hard_not_second2 c m Hm).
    destruct (mid +:+ post); [reflexivity |].
    by rewrite (hard_not_second3 c m _ Hm). }
  simpl in Hle.
  change (String d pre +:+ String m mid +:+ post)
    with (String d (pre +:+ String m mid +:+ post)).
  cbv match.
  destruct (is_space2 c d); [apply IH; lia |].
  destruct pre as [|e pre].
  { exists (String c (String d "")). cbn.
    by rewrite (hard_not_third3 c d m Hm). }
  simpl in Hle.
  change (String e pre +:+ String m mid +:+ post)
    with (String e (pre +:+ String m mid +:+ post)).
  cbv match.
  destruct (is_space3 c d e); [apply IH; lia |].
  by exists (String c (String d (String e pre))).
Qed.

(** *** [rstrip] *)

Lemma rstrip_cons c r :
  rstrip (String c r) =
    if is_space_char (String c (rstrip r)) then "" else String c (rstrip r).
Proof. reflexivity. Qed.

Lemma rstrip_hard mid post :
  hard mid = true -> rstrip (mid +:+ post) = mid +:+ rstrip post.
Proof.
  induction mid as [|c mid IH]; intros Hs; [reflexivity |].
  simpl in Hs. apply andb_true_iff in Hs as [Hc Hs].
  change (String c mid +:+ post) with (String c (mid +:+ post)).
  rewrite rstrip_cons, (IH Hs), space_char_hard_head by exact Hc.
  reflexivity.
Qed.

Lemma rstrip_keeps pre mid post :
  hard mid = true -> mid <> "" ->
  rstrip (pre +:+ mid +:+ post) = pre +:+ mid +:+ rstrip post.
Proof.
  intros Hs Hne. induction pre as [|d pre IH].
  - simpl. by apply rstrip_hard.
  - change (String d pre +:+ mid +:+ post)
      with (String d (pre +:+ mid +:+ post)).
    rewrite rstrip_cons, IH.
    destruct mid as [|m mid]; [congruence |].
    simpl in Hs. apply andb_true_iff in Hs as [Hm _].
    change (String m mid +:+ rstrip post) with (String m (mid +:+ rstrip post)).
    by rewrite space_char_hard_inside.
Qed.

Lemma strip_keeps pre mid post :
  hard mid = true -> mid <> "" ->
  exists pre' post', strip (pre +:+ mid +:+ post) = pre' +:+ mid +:+ post'.
Proof.
  intros Hs Hne. unfold strip.
  destruct (lstrip_keeps pre mid post Hs Hne) as [pre' ->].
  exists pre', (rstrip post). by apply rstrip_keeps.
Qed.

(** *** Letters *)

Lemma lower_char_hard c x :
  lower_char c = x -> hard_char x = true -> hard_char c = true.
Proof.
  unfold lower_char. intros Hl Hx.
  destruct ((65 <=? _) && _) eqn:E; [| congruence].
  unfold hard_char, is_space. clear Hl Hx.
  revert E. generalize (Bytes.byte_of_ascii c). intros b E.
  destruct (_ && _) eqn:G in |- *; [reflexivity | lia].
Qed.

Lemma lowers_to_webp mid :
  lower mid = "webp" -> hard mid = true /\ mid <> "".
Proof.
  destruct mid as [|c1 [|c2 [|c3 [|c4 [|? ?]]]]]; simpl; try discriminate.
  intros H. injection H as H1 H2 H3 H4.
  split; [| discriminate].
  rewrite (lower_char_hard _ _ H1), (lower_char_hard _ _ H2),
    (lower_char_hard _ _ H3), (lower_char_hard _ _ H4); reflexivity.
Qed.

End StrFacts.

Lemma ci_contains_lower n s :
  ci_contains n s -> Str.contains n (Str.lower s) = true.
Proof.
  intros (pre & mid & post & -> & <-).
  rewrite !StrFacts.lower_app. apply StrFacts.contains_app.
Qed.

Lemma ci_contains_strip s :
  ci_contains "webp" s -> ci_contains "webp" (Str.strip s).
Proof.
  intros (pre & mid & post & -> & Hl).
  destruct (StrFacts.lowers_to_webp mid Hl) as [Hs Hne].
  destruct (StrFacts.strip_keeps pre mid post Hs Hne) as (pre' & post' & ->).
  by exists pre', mid, post'.
Qed.

(** An article whose image URL mentions webp fails the test of line 87. *)
Lemma webp_image_detected a img :
  field a "urlToImage" JNull = JStr img -> ci_contains "webp" img ->
  Str.contains "webp" (Str.lower (article_image a)) = true.
Proof.
  intros Hf Hc. unfold article_image. rewrite Hf.
  by apply ci_contains_lower, ci_contains_strip.
Qed.

(** ** The monad *)

Section Monad.

Context {A B : Type}.

Lemma bind_ok (m : M A) (k : A -> M B) s s1 a :
  m s = (s1, inr a) -> bind m k s = k a s1.
Proof. intros H. unfold bind. rewrite H. reflexivity. Qed.

Lemma bind_err (m : M A) (k : A -> M B) s s1 e :
  m s = (s1, inl e) -> bind m k s = (s1, inl e).
Proof. intros H. unfold bind. rewrite H. reflexivity. Qed.

Lemma bind_inv (m : M A) (k : A -> M B) s s' r :
  bind m k s = (s', r) ->
  (exists s1 a, m s = (s1, inr a) /\ k a s1 = (s', r))
  \/ (exists e, m s = (s', inl e) /\ r = inl e).
Proof.
  unfold bind. destruct (m s) as [s1 [e|a]]; intros H.
  - right. exists e. inversion H; subst. split; reflexivity.
  - left. exists s1, a. split; [reflexivity | exact H].
Qed.

End Monad.

(** ** One article *)

Section Steps.

Context (w : World).

Lemma strip_or_empty s :
  (if Str.nonempty (Str.strip s) then Str.strip s else "") = Str.strip s.
Proof. destruct (Str.strip s); reflexivity. Qed.

Lemma article_step_outcome a loc s s' r :
  article_step w a loc s = (s', r) ->
  trace s' = trace s /\ requests s' = requests s /\ draws s' = draws s
  /\ (clock_reads s <= clock_reads s')%nat
  /\ match r with
     | inr (loc', v) => step_outcome w a loc loc' v
     | inl _ => True
     end.
Proof.
  unfold article_step. intros H.
  destruct a as [| | | |?|members];
    try (inversion H; subst; auto; fail).
  cbv [bind ret raise py_get py_hash read_utcnow] in H.
  assert (Hearly : forall v, early v ->
            step_outcome w (JObj members) loc loc v) by (intros; by constructor).
  destruct (truthy (default JNull (dict_get "publishedAt" members))) eqn:Epa;
    simpl in H;
    [| inversion H; subst; repeat split; auto; apply Hearly; unfold early; tauto].
  destruct (parse_published w _) as [published|] eqn:Eparse;
    [| inversion H; subst; repeat split; auto; apply Hearly; unfold early; tauto].
  assert (Htick : (clock_reads s <= clock_reads (tick s))%nat) by (simpl; lia).
  destruct (published <? _) eqn:Eold;
    [inversion H; subst; repeat split; auto; apply Hearly; unfold early; tauto |].
  destruct (truthy (default JNull (dict_get "url" members))) eqn:Eurl;
    simpl in H; [| inversion H; subst; repeat split; auto; by constructor].
  destruct (hash_key (default JNull (dict_get "url" members))) as [k|] eqn:Ekey;
    [| inversion H; subst; repeat split; auto].
  destruct (bool_decide (k ∈ seen_links loc)) eqn:Eseen.
  { inversion H; subst. repeat split; auto.
    apply bool_decide_eq_true in Eseen. by apply out_seen with k. }
  apply bool_decide_eq_false in Eseen.
  destruct (default (JObj []) (dict_get "source" members)) as [| | | |?|src];
    try (inversion H; subst; repeat split; auto; fail).
  assert (Himg : match default JNull (dict_get "urlToImage" members) with
                 | JStr x => if Str.nonempty (Str.strip x) then Str.strip x else ""
                 | _ => ""
                 end = article_image (JObj members)).
  { unfold article_image, field.
    destruct (default JNull (dict_get "urlToImage" members));
      auto using strip_or_empty. }
  rewrite !Himg in H.
  destruct (Str.contains "webp" _) eqn:Ewebp; inversion H; subst;
    repeat split; auto.
  - by apply out_webp.
  - apply out_kept; auto. repeat split; auto.
Qed.

Lemma step_outcome_seen a loc loc' v :
  step_outcome w a loc loc' v -> seen_links loc ⊆ seen_links loc'.
Proof. destruct 1; simpl; set_solver. Qed.

Lemma step_outcome_not_kept a loc loc' v :
  step_outcome w a loc loc' v -> v <> Kept -> all_news loc' = all_news loc.
Proof. destruct 1; simpl; congruence. Qed.

Lemma step_outcome_claimed a loc loc' v :
  step_outcome w a loc loc' v -> claimed v ->
  exists k, article_key a = Some k /\ truthy (article_url a) = true
            /\ k ∈ seen_links loc'.
Proof.
  destruct 1 as [v He| |k|k|k item]; intros Hc.
  - unfold claimed, early in *. intuition congruence.
  - unfold claimed in Hc. intuition congruence.
  - exists k. auto.
  - exists k. simpl. repeat split; auto. set_solver.
  - exists k. simpl. repeat split; auto. set_solver.
Qed.

Lemma visits_cons_inv loc a v vs loc' :
  visits w loc ((a, v) :: vs) loc' ->
  exists loc1, step_outcome w a loc loc1 v /\ visits w loc1 vs loc'.
Proof. inversion 1; subst; eauto. Qed.

Lemma visits_app loc l1 l2 loc' :
  visits w loc (l1 ++ l2) loc' <->
  exists mid, visits w loc l1 mid /\ visits w mid l2 loc'.
Proof.
  revert loc. induction l1 as [|[a v] l1 IH]; intros loc; simpl.
  - split.
    + intros H. exists loc. split; [constructor | exact H].
    + intros (mid & H1 & H2). inversion H1; subst. exact H2.
  - split.
    + intros H. apply visits_cons_inv in H as (loc1 & Hs & H).
      apply IH in H as (mid & H1 & H2).
      exists mid. split; [econstructor; eauto | exact H2].
    + intros (mid & H1 & H2).
      apply visits_cons_inv in H1 as (loc1 & Hs & H1).
      econstructor; [eauto |]. apply IH. eauto.
Qed.

Lemma visits_seen loc vs loc' :
  visits w loc vs loc' -> seen_links loc ⊆ seen_links loc'.
Proof.
  induction 1 as [|loc a v loc1 vs loc2 Hs _ IH]; [set_solver |].
  apply step_outcome_seen in Hs. set_solver.
Qed.

(** Once an iteration got to the membership test with a url, no later
    iteration with that url gets past it. *)
Lemma visits_first_claims loc pre a va mid b vb post loc' :
  visits w loc (pre ++ (a, va) :: mid ++ (b, vb) :: post) loc' ->
  claimed va -> same_url a b ->
  vb = SeenUrl \/ early vb.
Proof.
  intros H Hc (k & Ha & Hb).
  apply visits_app in H as (l1 & _ & H).
  apply visits_cons_inv in H as (la & Hsa & H).
  apply visits_app in H as (l2 & Hmid & H).
  apply visits_cons_inv in H as (lb & H5 & _).
  destruct (step_outcome_claimed _ _ _ _ Hsa Hc) as (k' & Hk' & Ht & Hin).
  assert (k' = k) by congruence. subst k'.
  assert (Hseen : k ∈ seen_links l2) by (apply visits_seen in Hmid; set_solver).
  assert (Htb : truthy (article_url b) = true).
  { unfold article_key in *. revert Ht Ha Hb.
    destruct (article_url a) as [|[]|n| |?|?], (article_url b) as [|[]|m| |?|?];
      simpl; intros; simplify_eq; auto. }
  clear - H5 Hseen Hb Htb.
  inversion H5; subst; auto; congruence.
Qed.

Lemma locals_ok_empty : locals_ok (Locals ∅ []).
Proof.
  split; [constructor | split]; intros n Hn; simpl in Hn; inversion Hn.
Qed.

Lemma step_outcome_ok a loc loc' v :
  step_outcome w a loc loc' v -> locals_ok loc -> locals_ok loc'.
Proof.
  destruct 1 as [v He| |k|k|k item Ht Hk Hnew Hw Hitem]; auto.
  - intros (Hnd & Hin & Hwebp). split; [exact Hnd | split; simpl; auto].
    intros n Hn. destruct (Hin n Hn) as (k' & ? & ?). exists k'. set_solver.
  - intros (Hnd & Hin & Hwebp).
    destruct Hitem as (Hurl & Himg & _).
    assert (Hkey : item_key item = Some k).
    { unfold item_key. rewrite Hurl. exact Hk. }
    split; [| split]; simpl.
    + rewrite fmap_app. apply NoDup_app. split; [exact Hnd | split].
      * intros x Hx Hx'. simpl in Hx'. apply list_elem_of_singleton in Hx'.
        apply list_elem_of_fmap in Hx as (n & -> & Hn).
        destruct (Hin n Hn) as (k' & Hk' & Hseen). congruence.
      * simpl. apply NoDup_singleton.
    + intros n Hn. apply elem_of_app in Hn as [Hn|Hn].
      * destruct (Hin n Hn) as (k' & ? & ?). exists k'. set_solver.
      * apply list_elem_of_singleton in Hn. subst. exists k. set_solver.
    + intros n Hn. apply elem_of_app in Hn as [Hn|Hn]; [auto |].
      apply list_elem_of_singleton in Hn. subst. by rewrite Himg.
Qed.

Lemma visits_ok loc vs loc' :
  visits w loc vs loc' -> locals_ok loc -> locals_ok loc'.
Proof. induction 1; eauto using step_outcome_ok. Qed.

(** ** The loops *)

Lemma visits_of_app t1 t2 : visits_of (t1 ++ t2) = visits_of t1 ++ visits_of t2.
Proof. apply omap_app. Qed.

Lemma visits_of_visit_events vs : visits_of (visit_event <$> vs) = vs.
Proof.
  induction vs as [|[a v] vs IH]; [reflexivity |].
  change (visits_of (visit_event <$> (a, v) :: vs))
    with ((a, v) :: visits_of (visit_event <$> vs)).
  by rewrite IH.
Qed.

Lemma for_articles_spec items loc s s' r :
  for_articles w items loc s = (s', r) ->
  exists vs loc_end,
    trace s' = trace s ++ (visit_event <$> vs)
    /\ draws s' = draws s /\ requests s' = requests s
    /\ (clock_reads s <= clock_reads s')%nat
    /\ visits w loc vs loc_end
    /\ (forall loc', r = inr loc' -> loc_end = loc' /\ vs.*1 = items).
Proof.
  revert loc s. induction items as [|a rest IH]; intros loc s H; simpl in H.
  - inversion H; subst. exists [], loc. simpl. rewrite app_nil_r.
    repeat split; try constructor; congruence.
  - apply bind_inv in H as [(s1 & [loc1 v] & Hstep & H)|(e & Hstep & ->)].
    + apply article_step_outcome in Hstep as (Ht & Hr & Hd & Hc & Hout).
      simpl in H. unfold bind at 1, emit in H.
      apply IH in H as (vs & loc_end & Ht' & Hd' & Hr' & Hc' & Hvs & Hres).
      exists ((a, v) :: vs), loc_end. simpl in *.
      rewrite Ht', Ht, <- app_assoc. simpl.
      repeat split; try congruence.
      * lia.
      * econstructor; eauto.
      * by apply Hres.
      * f_equal. by destruct (Hres _ H).
    + apply article_step_outcome in Hstep as (Ht & Hr & Hd & Hc & _).
      exists [], loc. simpl. rewrite app_nil_r.
      repeat split; try constructor; congruence.
Qed.

End Steps.

Section Loops.

Context (w : World) (cfg : config).

Lemma collects_here loc s r :
  (forall loc', r = inr loc' -> loc = loc') -> collects w loc s s r.
Proof.
  intros H. exists [], loc. rewrite app_nil_r.
  repeat split; [lia | constructor | exact H].
Qed.

Lemma collects_after loc loc1 s s1 s' r evs :
  trace s1 = trace s ++ evs -> draws s1 = draws s ->
  (clock_reads s <= clock_reads s1)%nat ->
  visits w loc (visits_of evs) loc1 ->
  collects w loc1 s1 s' r -> collects w loc s s' r.
Proof.
  intros Ht Hd Hc Hv (evs' & loc_end & Ht' & Hd' & Hc' & Hv' & Hr).
  exists (evs ++ evs'), loc_end. rewrite Ht', Ht, app_assoc, visits_of_app.
  repeat split; [congruence | lia | | exact Hr].
  apply visits_app. eauto.
Qed.

(** Step over one event that is not a visit; [H] holds the rest of the run. *)
Ltac after_event H :=
  match type of H with
  | collects _ _ ?s1 _ _ =>
      eapply (collects_after _ _ _ s1 _ _ [_]);
      [reflexivity | reflexivity | reflexivity | constructor | exact H]
  | _ ?s1 = _ =>
      eapply (collects_after _ _ _ s1 _ _ [_]);
      [reflexivity | reflexivity | reflexivity | constructor |]
  end.

Lemma for_keywords_spec keywords loc s s' r :
  for_keywords w cfg keywords loc s = (s', r) -> collects w loc s s' r.
Proof.
  revert loc s. induction keywords as [|kw rest IH]; intros loc s H; simpl in H.
  - inversion H; subst. apply collects_here. congruence.
  - unfold bind at 1, print, emit in H.
    apply (collects_after loc loc s (record (Print (MsgFetching kw)) s) _ _
             [Print (MsgFetching kw)]);
      [reflexivity | reflexivity | reflexivity | constructor |].
    apply (collects_after loc loc _
             (requested (HttpGet (news_url cfg kw))
                (record (Print (MsgFetching kw)) s)) _ _
             [HttpGet (news_url cfg kw)]);
      [reflexivity | reflexivity | reflexivity | constructor |].
    apply bind_inv in H as [(s1 & resp & Hget & H)|(e & Hget & ->)];
      unfold http_get in Hget; destruct (requests_get w _ _);
      inversion Hget; subst; clear Hget.
    2:{ apply collects_here. congruence. }
    destruct (negb (status_code resp =? 200)).
    { unfold bind at 1, print, emit in H. apply IH in H. after_event H. }
    apply bind_inv in H as [(s2 & body & Hj & H)|(e & Hj & ->)];
      unfold response_json in Hj; destruct (json_body resp);
      inversion Hj; subst; clear Hj;
      try (apply collects_here; congruence).
    apply bind_inv in H as [(s2 & articles & Hj & H)|(e & Hj & ->)];
      unfold py_get in Hj; destruct body;
      inversion Hj; subst; clear Hj;
      try (apply collects_here; congruence).
    apply bind_inv in H as [(s2 & n & Hj & H)|(e & Hj & ->)];
      unfold py_len in Hj; destruct (default _ _);
      inversion Hj; subst; clear Hj;
      try (apply collects_here; congruence).
    all: unfold bind at 1, print, emit in H; after_event H.
    all: apply bind_inv in H as [(s2 & its & Hj & H)|(e & Hj & ->)];
      inversion Hj; subst; clear Hj.
    all: apply bind_inv in H as [(s2 & loc1 & Hj & H)|(e & Hj & ->)];
      apply for_articles_spec in Hj
        as (vs & loc_end & Ht & Hd & Hr & Hc & Hv & Hres).
    all: try (exists (visit_event <$> vs), loc_end;
              rewrite visits_of_visit_events;
              repeat split; auto; congruence).
    all: destruct (Hres _ eq_refl) as [-> _]; apply IH in H;
      eapply collects_after; eauto; by rewrite visits_of_visit_events.
Qed.



Lemma recent_only_spec news s :
  exists kept,
    recent_only w news s =
      (State (clock_reads s + length news) (draws s) (requests s) (trace s),
       inr kept)
    /\ kept `sublist_of` news
    /\ (forall n, n ∈ kept ->
          exists k, (clock_reads s <= k < clock_reads s + length news)%nat
                    /\ utcnow w k - timedelta 2 <= published_dt n)
    /\ ((forall n k, n ∈ news -> published_dt n < utcnow w k - timedelta 2) ->
        kept = []).
Proof.
  revert s. induction news as [|n rest IH]; intros s; simpl.
  - exists []. unfold ret. rewrite Nat.add_0_r. destruct s.
    repeat split; auto. intros n Hn. inversion Hn.
  - destruct (IH (tick s)) as (kept & Hrun & Hsub & Hin & Hnone).
    unfold bind at 1, read_utcnow. unfold bind at 1. rewrite Hrun. simpl.
    replace (S (clock_reads s + length rest))
      with (clock_reads s + S (length rest))%nat in * by lia.
    eexists. split; [reflexivity |].
    destruct (published_dt n >=? _) eqn:E.
    + split; [by constructor | split].
      * intros m Hm. apply elem_of_cons in Hm as [->|Hm].
        -- exists (clock_reads s). split; lia.
        -- destruct (Hin m Hm) as (k & Hk & Hb). exists k.
           simpl in Hk. split; [lia | exact Hb].
      * intros Hold. exfalso.
        specialize (Hold n (clock_reads s) ltac:(left)). lia.
    + split; [by constructor | split].
      * intros m Hm. destruct (Hin m Hm) as (k & Hk & Hb). exists k.
        simpl in Hk. split; [lia | exact Hb].
      * intros Hold. apply Hnone. intros m k Hm. apply Hold. by right.
Qed.

Lemma shuffle_down_spec {A} i (x : list A) s :
  (i < length x \/ i = 0)%nat ->
  exists x',
    shuffle_down w i x s =
      (State (clock_reads s) (draws s + i) (requests s) (trace s), inr x')
    /\ x' ≡ₚ x.
Proof.
  revert x s. induction i as [|i IH]; intros x s Hi; simpl.
  - exists x. unfold ret. rewrite Nat.add_0_r. by destruct s.
  - destruct Hi as [Hi|]; [| lia].
    unfold bind, randbelow.
    set (j := (random_draw w (draws s) mod _)%nat).
    assert (Hj : (j < length x)%nat).
    { pose proof (Nat.mod_upper_bound (random_draw w (draws s)) (S (i + 1))).
      unfold j. lia. }
    destruct (lookup_lt_is_Some_2 x (S i) Hi) as [xi Hxi].
    destruct (lookup_lt_is_Some_2 x j Hj) as [xj Hxj].
    rewrite Hxi, Hxj.
    destruct (IH (<[j:=xi]> (<[S i:=xj]> x)) (drawn s)) as (x' & Hrun & Hp).
    { left. rewrite !length_insert. lia. }
    exists x'. rewrite Hrun. simpl.
    split; [by rewrite Nat.add_succ_r |].
    rewrite Hp. by apply Permutation_insert_swap.
Qed.

Lemma shuffle_spec {A} (x : list A) s :
  exists x',
    shuffle w x s =
      (State (clock_reads s) (draws s + (length x - 1)) (requests s) (trace s),
       inr x')
    /\ x' ≡ₚ x.
Proof. apply shuffle_down_spec. lia. Qed.

(** [fetch_news], stage by stage. *)
Lemma fetch_news_inv s s' r :
  fetch_news w cfg s = (s', r) ->
  exists s1 r1,
    for_keywords w cfg KEYWORDS (Locals ∅ []) s = (s1, r1)
    /\ match r1 with
       | inl e => s' = s1 /\ r = inl e
       | inr loc =>
           exists recent shuffled,
             recent `sublist_of` all_news loc
             /\ shuffled ≡ₚ recent
             /\ r = inr (take NEWS_LIMIT shuffled)
             /\ trace s' = trace s1 ++ [Print (MsgRecent (length recent))]
             /\ clock_reads s' = (clock_reads s1 + length (all_news loc))%nat
             /\ (forall n, n ∈ recent ->
                   exists k, (clock_reads s1 <= k < clock_reads s')%nat
                             /\ utcnow w k - timedelta 2 <= published_dt n)
             /\ ((forall n k, n ∈ all_news loc ->
                    published_dt n < utcnow w k - timedelta 2) ->
                 recent = [])
       end.
Proof.
  unfold fetch_news. intros H.
  apply bind_inv in H as [(s1 & loc & Hk & H)|(e & Hk & ->)].
  2:{ exists s', (inl e). auto. }
  exists s1, (inr loc). split; [exact Hk |].
  destruct (recent_only_spec (all_news loc) s1)
    as (recent & Hrun & Hsub & Hin & Hnone).
  unfold bind at 1 in H. rewrite Hrun in H.
  unfold bind at 1, print, emit in H.
  match type of H with
  | bind (shuffle w recent) _ ?s2 = _ =>
      destruct (shuffle_spec recent s2) as (shuffled & Hsh & Hperm)
  end.
  unfold bind in H. rewrite Hsh in H. inversion H; subst; clear H.
  exists recent, shuffled. simpl. repeat split; auto.
Qed.

Lemma events_since_app s s' evs :
  trace s' = trace s ++ evs -> events_since s s' = evs.
Proof. intros H. unfold events_since. rewrite H. apply drop_app_length. Qed.

(** The whole of [fetch_news]: the iterations it went through and, when
    it returns, how the selection derives from the candidates. *)
Lemma fetch_news_run s s' r :
  fetch_news w cfg s = (s', r) ->
  exists loc,
    visits w (Locals ∅ []) (visits_of (events_since s s')) loc
    /\ forall sel, r = inr sel ->
         exists s1 recent shuffled,
           for_keywords w cfg KEYWORDS (Locals ∅ []) s = (s1, inr loc)
           /\ recent `sublist_of` all_news loc
           /\ shuffled ≡ₚ recent
           /\ sel = take NEWS_LIMIT shuffled
           /\ (forall n, n ∈ recent ->
                 exists k, (clock_reads s <= k < clock_reads s')%nat
                           /\ utcnow w k - timedelta 2 <= published_dt n)
           /\ ((forall n k, n ∈ all_news loc ->
                  published_dt n < utcnow w k - timedelta 2) ->
               recent = []).
Proof.
  intros H. apply fetch_news_inv in H as (s1 & r1 & Hk & H).
  pose proof (for_keywords_spec _ _ _ _ _ Hk)
    as (evs & loc_end & Ht & Hd & Hc & Hv & Hres).
  destruct r1 as [e|loc].
  - destruct H as [-> ->]. exists loc_end.
    rewrite (events_since_app _ _ _ Ht). split; [exact Hv | discriminate].
  - destruct H as (recent & shuffled & Hsub & Hperm & -> & Ht' & Hc' & Hin & Hno).
    rewrite (Hres loc eq_refl) in Hv. exists loc.
    rewrite Ht, <- app_assoc in Ht'.
    rewrite (events_since_app _ _ _ Ht'), visits_of_app. simpl.
    rewrite app_nil_r. split; [exact Hv |].
    intros sel Hsel. injection Hsel as <-.
    exists s1, recent, shuffled. repeat split; auto.
    intros n Hn. destruct (Hin n Hn) as (k & Hk' & Hb).
    exists k. split; [lia | exact Hb].
Qed.

Lemma visits_elem loc vs loc' a v :
  visits w loc vs loc' -> (a, v) ∈ vs ->
  exists l1 l2, step_outcome w a l1 l2 v.
Proof.
  induction 1 as [|loc a0 v0 loc1 vs loc2 Hs _ IH]; intros Hin.
  - inversion Hin.
  - apply elem_of_cons in Hin as [Heq|Hin]; [| by apply IH].
    injection Heq as -> ->. eauto.
Qed.

(** After the webp test rejected an article, its url is claimed and no
    candidate carries it, now or later. *)
Lemma visits_webp_url_absent loc pre a rest loc' :
  visits w loc (pre ++ (a, WebpImage) :: rest) loc' -> locals_ok loc ->
  forall n, n ∈ all_news loc' -> item_key n <> article_key a.
Proof.
  intros H Hok. apply visits_app in H as (la & Hpre & H).
  apply visits_cons_inv in H as (lb & Hstep & Hrest).
  pose proof (visits_ok _ _ _ _ Hpre Hok) as (_ & Hin & _).
  assert (Hb : exists k, article_key a = Some k /\ k ∈ seen_links lb
            /\ forall n, n ∈ all_news lb -> item_key n <> Some k).
  { inversion Hstep as [v He| | | k Ht Hk Hnew Hw |]; subst.
    - unfold early in He. intuition congruence.
    - exists k. simpl. repeat split; [exact Hk | set_solver |].
      intros n Hn Heq. destruct (Hin n Hn) as (k' & Hk' & Hseen). congruence. }
  destruct Hb as (k & Hk & Hseen & Habs). rewrite Hk. clear - Hrest Hseen Habs.
  induction Hrest as [|loc a0 v0 loc1 vs loc2 Hs _ IH]; [exact Habs |].
  apply IH.
  - apply step_outcome_seen in Hs. set_solver.
  - inversion Hs as [| | | |k0 item Ht Hk0 Hnew Hw Hitem]; subst; auto.
    simpl. intros n Hn. apply elem_of_app in Hn as [Hn|Hn]; [auto |].
    apply list_elem_of_singleton in Hn. subst n.
    destruct Hitem as (Hurl & _). unfold item_key. rewrite Hurl.
    fold (article_key a0). rewrite Hk0. intros Heq. injection Heq as ->.
    contradiction.
Qed.

End Loops.

(** * Properties of the script *)

(** ** Signing *)

(** C1.  [sign_url] reads the clock once, signs [timestamp \n secret] with
    HMAC-SHA256 keyed by the secret, base64-encodes the digest and
    percent-encodes the base64 text; whenever the reading is
    1700000000000 and the secret is [testsecret], whatever the world, the
    state and the webhook base, the [sign] parameter is the same golden
    value. *)
Theorem sign_url_golden (w : World) (cfg : config) (s : state) :
  sign_url w cfg s =
    (tick s,
     inr (let timestamp := pretty (time_ms w (clock_reads s)) in
          let secret := DINGTALK_SECRET cfg in
          DINGTALK_WEBHOOK cfg +:+ "&timestamp=" +:+ timestamp +:+ "&sign=" +:+
          Urllib.quote_plus
            (Base64.b64encode
               (Bytes.of_list
                  (HMAC.sha256 (Bytes.to_list secret)
                     (Bytes.to_list (timestamp +:+ Str.newline +:+ secret)))))))
  /\ (time_ms w (clock_reads s) = 1700000000000 ->
      DINGTALK_SECRET cfg = "testsecret" ->
      sign_url w cfg s =
        (tick s,
         inr (DINGTALK_WEBHOOK cfg +:+
              "&timestamp=1700000000000&sign=" +:+ golden_sign)))
  /\ golden_sign =
       Urllib.quote_plus
         (Base64.b64encode
            (Bytes.of_list
               (HMAC.sha256 (Bytes.to_list "testsecret")
                  (Bytes.to_list
                     ("1700000000000" +:+ Str.newline +:+ "testsecret"))))).
Proof.
  split; [reflexivity | split].
  - intros Ht Hs. unfold sign_url, bind, read_time_ms, ret.
    rewrite Ht, Hs. vm_compute. reflexivity.
  - vm_compute. reflexivity.
Qed.

Lemma sign_url_golden_witness :
  sign_url (Scenario.world_of 200 []) Scenario.cfg initial =
    (tick initial,
     inr (DINGTALK_WEBHOOK Scenario.cfg +:+
          "&timestamp=1700000000000&sign=" +:+ golden_sign)).
Proof.
  apply (proj1 (proj2 (sign_url_golden (Scenario.world_of 200 [])
                         Scenario.cfg initial)));
    reflexivity.
Defined.

(** ** Configuration *)

(** C5.  When one of the three secrets is missing from the environment or
    empty, the script raises [ValueError] in the state it started in: no
    event has been recorded, so no request was made and nothing was sent. *)
Theorem missing_secret_aborts (w : World) (s : state) (name : string) :
  name ∈ required_secrets ->
  getenv w name = None \/ getenv w name = Some "" ->
  script w s = (s, inl ValueError)
  /\ events_since s (script w s).1 = [].
Proof.
  intros Hname Hmiss.
  assert (Hf : env_truthy (getenv w name) = false)
    by (destruct Hmiss as [-> | ->]; reflexivity).
  assert (H : script w s = (s, inl ValueError)).
  { unfold script, bind, load_config, required_secrets in *. simpl.
    apply elem_of_cons in Hname as [->|Hname];
      [| apply elem_of_cons in Hname as [->|Hname];
         [| apply list_elem_of_singleton in Hname as ->]];
      rewrite Hf; simpl; rewrite ?andb_false_r; reflexivity. }
  split; [exact H |]. rewrite H. unfold events_since. simpl.
  apply drop_all.
Qed.

Lemma missing_secret_aborts_witness :
  script Scenario.unconfigured_world initial = (initial, inl ValueError)
  /\ events_since initial (script Scenario.unconfigured_world initial).1 = [].
Proof.
  apply (missing_secret_aborts Scenario.unconfigured_world initial
           "DINGTALK_SECRET").
  - unfold required_secrets. set_solver.
  - right. reflexivity.
Defined.

(** ** Sending *)

(** C7.  On an empty list [send_to_dingtalk] prints its notice and returns:
    the clock is not read (no URL is signed) and no request is made.  When
    [fetch_news] selects nothing, the script ends normally after two
    prints. *)
Theorem empty_selection_sends_nothing (w : World) (cfg : config) (s : state) :
  send_to_dingtalk w cfg [] s = (record (Print MsgNothingToSend) s, inr tt)
  /\ (forall s1, fetch_news w cfg s = (s1, inr []) ->
      main w cfg s =
        (record (Print MsgNothingToSend) (record (Print (MsgTotal 0)) s1),
         inr tt)).
Proof.
  split; [reflexivity |].
  intros s1 H. unfold main, bind. rewrite H. reflexivity.
Qed.

Lemma empty_selection_sends_nothing_witness :
  exists s1,
    main (Scenario.world_of 200 Scenario.stale) Scenario.cfg initial =
      (record (Print MsgNothingToSend) (record (Print (MsgTotal 0)) s1), inr tt).
Proof.
  eexists.
  apply (proj2 (empty_selection_sends_nothing
                  (Scenario.world_of 200 Scenario.stale) Scenario.cfg initial)).
  vm_compute. reflexivity.
Defined.

(** ** Fetching *)

(** C6, as the code has it.  The test is [status_code != 200]: with any
    other status, 2xx or not, the answer is logged and the loop goes on
    to the next keyword with the locals unchanged, after a single request;
    with status 200 the articles of the answer are run through. *)
Theorem only_status_200_is_processed (w : World) (cfg : config)
    (kw : string) (rest : list string) (loc : locals) (s : state)
    (resp : response) :
  requests_get w (requests s) (news_url cfg kw) = Some resp ->
  (status_code resp <> 200 ->
   for_keywords w cfg (kw :: rest) loc s =
     for_keywords w cfg rest loc
       (record (Print (MsgFetchFailed (text resp))) (asked cfg kw s)))
  /\ (status_code resp = 200 ->
      forall members items,
        json_body resp = Some (JObj members) ->
        dict_get "articles" members = Some (JArr items) ->
        for_keywords w cfg (kw :: rest) loc s =
          bind (for_articles w items loc) (for_keywords w cfg rest)
            (record (Print (MsgFetched (length items) DAYS_FILTER))
               (asked cfg kw s))).
Proof.
  intros Hget. split.
  - intros Hne. simpl. unfold bind at 1, print, emit.
    unfold bind at 1, http_get. simpl. rewrite Hget.
    apply Z.eqb_neq in Hne. rewrite Hne. reflexivity.
  - intros Heq members items Hbody Hart. simpl. unfold bind at 1, print, emit.
    unfold bind at 1, http_get. simpl. rewrite Hget.
    apply Z.eqb_eq in Heq. rewrite Heq. simpl.
    unfold bind at 1, response_json. rewrite Hbody.
    unfold bind at 1, py_get, ret. rewrite Hart. reflexivity.
Qed.

Lemma only_status_200_is_processed_witness :
  for_keywords (Scenario.world_of 203 Scenario.fresh) Scenario.cfg
    ["sewing thread"] (Locals ∅ []) initial =
  for_keywords (Scenario.world_of 203 Scenario.fresh) Scenario.cfg
    [] (Locals ∅ [])
    (record (Print (MsgFetchFailed "body"))
       (asked Scenario.cfg "sewing thread" initial)).
Proof.
  apply (proj1 (only_status_200_is_processed
                  (Scenario.world_of 203 Scenario.fresh) Scenario.cfg
                  "sewing thread" [] (Locals ∅ []) initial
                  (Response 203 "body"
                     (Some (JObj [("status", JStr "ok");
                                  ("articles", JArr Scenario.fresh)])))
                  eq_refl)).
  simpl. lia.
Defined.

(** Status 203 is a success status, and the same answer with status 200
    yields a candidate; yet with 203 no article is visited and nothing is
    selected. *)
Lemma status_203_is_skipped :
  (200 <=? 203) && (203 <? 300) = true
  /\ (exists s1 item,
        fetch_news (Scenario.world_of 200 Scenario.fresh) Scenario.cfg initial
        = (s1, inr [item]))
  /\ (exists s1,
        fetch_news (Scenario.world_of 203 Scenario.fresh) Scenario.cfg initial
        = (s1, inr [])
        /\ visits_of (trace s1) = []
        /\ Print (MsgFetchFailed "body") ∈ trace s1).
Proof.
  split; [reflexivity | split].
  - eexists _, _. vm_compute. reflexivity.
  - eexists. split; [vm_compute; reflexivity | split; [reflexivity |]].
    simpl. set_solver.
Qed.

(** C10.  A status-200 answer whose JSON object has no [articles] member
    counts as an empty list: the loop prints a count of 0 and goes on to
    the next keyword with the locals unchanged, raising nothing. *)
Theorem missing_articles_field_is_empty (w : World) (cfg : config)
    (kw : string) (rest : list string) (loc : locals) (s : state)
    (resp : response) (members : list (string * json)) :
  requests_get w (requests s) (news_url cfg kw) = Some resp ->
  status_code resp = 200 ->
  json_body resp = Some (JObj members) ->
  dict_get "articles" members = None ->
  for_keywords w cfg (kw :: rest) loc s =
    for_keywords w cfg rest loc
      (record (Print (MsgFetched 0 DAYS_FILTER)) (asked cfg kw s)).
Proof.
  intros Hget Heq Hbody Hart. simpl. unfold bind at 1, print, emit.
  unfold bind at 1, http_get. simpl. rewrite Hget.
  apply Z.eqb_eq in Heq. rewrite Heq. simpl.
  unfold bind at 1, response_json. rewrite Hbody.
  unfold bind at 1, py_get, ret. rewrite Hart. reflexivity.
Qed.

Lemma missing_articles_field_is_empty_witness :
  for_keywords Scenario.bare_world Scenario.cfg KEYWORDS (Locals ∅ []) initial =
    (record (Print (MsgFetched 0 DAYS_FILTER))
       (asked Scenario.cfg "sewing thread" initial),
     inr (Locals ∅ [])).
Proof.
  apply (missing_articles_field_is_empty Scenario.bare_world Scenario.cfg
           "sewing thread" [] (Locals ∅ []) initial
           (Response 200 "body" (Some (JObj [("status", JStr "ok")])))
           [("status", JStr "ok")]);
    reflexivity.
Defined.

(** ** Candidates *)

Lemma article_step_kept w a loc s s' loc' :
  article_step w a loc s = (s', inr (loc', Kept)) ->
  exists item, all_news loc' = all_news loc ++ [item] /\ kept_item w a item.
Proof.
  intros H. apply article_step_outcome in H as (_ & _ & _ & _ & H).
  inversion H as [v He| | | |k item Ht Hk Hnew Hw Hitem]; subst.
  - unfold early in He. intuition congruence.
  - exists item. split; [reflexivity | exact Hitem].
Qed.



Lemma sublist_take_shuffled (sel recent shuffled news : list news_item) :
  shuffled ≡ₚ recent -> recent `sublist_of` news ->
  sel = take NEWS_LIMIT shuffled ->
  forall n, n ∈ sel -> n ∈ recent /\ n ∈ news.
Proof.
  intros Hp Hs -> n Hn.
  assert (n ∈ recent).
  { rewrite <- Hp. eapply elem_of_sublist; [exact Hn | apply sublist_take]. }
  split; [assumption | eapply elem_of_sublist; eassumption].
Qed.

(** C4.  An article whose image URL contains webp in any letter case never
    reaches [all_news.append]: the iteration leaves the candidates as
    they were, whatever the other fields; over a whole run of [fetch_news]
    no such article is kept and no selected item has such an image. *)
Theorem webp_image_is_excluded (w : World) (a : json) (img : string) :
  field a "urlToImage" JNull = JStr img ->
  ci_contains "webp" img ->
  (forall loc s s' loc' v,
     article_step w a loc s = (s', inr (loc', v)) ->
     v <> Kept /\ all_news loc' = all_news loc)
  /\ (forall cfg s s' r,
        fetch_news w cfg s = (s', r) ->
        forall v, (a, v) ∈ visits_of (events_since s s') -> v <> Kept).
Proof.
  intros Hf Hc.
  pose proof (webp_image_detected a img Hf Hc) as Hw.
  assert (Hout : forall l1 l2 v, step_outcome w a l1 l2 v -> v <> Kept).
  { intros l1 l2 v Hs. inversion Hs as [v' He| | | |]; subst; try congruence.
    unfold early in He. intuition congruence. }
  split.
  - intros loc s s' loc' v H.
    apply article_step_outcome in H as (_ & _ & _ & _ & H).
    split; [eauto | eapply step_outcome_not_kept; eauto].
  - intros cfg s s' r H v Hin.
    apply fetch_news_run in H as (loc & Hv & _).
    destruct (visits_elem _ _ _ _ _ _ Hv Hin) as (l1 & l2 & Hs). eauto.
Qed.

Lemma webp_image_is_excluded_witness :
  exists s' loc' v,
    article_step (Scenario.world_of 200 Scenario.mixed)
      (Scenario.article "https://n/2" "2024-03-11T07:00:00Z"
         [("urlToImage", JStr " https://img/a.WebP?x=1 ");
          ("title", JStr "a title"); ("description", JStr "a description")])
      (Locals ∅ []) initial = (s', inr (loc', v))
    /\ v <> Kept /\ all_news loc' = [].
Proof.
  exists (tick initial), (Locals {[ Some (inr "https://n/2") ]} []), WebpImage.
  assert (H : article_step (Scenario.world_of 200 Scenario.mixed)
                (Scenario.article "https://n/2" "2024-03-11T07:00:00Z"
                   [("urlToImage", JStr " https://img/a.WebP?x=1 ");
                    ("title", JStr "a title");
                    ("description", JStr "a description")])
                (Locals ∅ []) initial
              = (tick initial,
                 inr (Locals {[ Some (inr "https://n/2") ]} [], WebpImage)))
    by (vm_compute; reflexivity).
  split; [exact H |].
  refine (proj1 (webp_image_is_excluded
                   (Scenario.world_of 200 Scenario.mixed)
                   (Scenario.article "https://n/2" "2024-03-11T07:00:00Z"
                      [("urlToImage", JStr " https://img/a.WebP?x=1 ");
                       ("title", JStr "a title");
                       ("description", JStr "a description")])
                   " https://img/a.WebP?x=1 " eq_refl _)
            _ _ _ _ _ H).
  exists " https://img/a.", "WebP", "?x=1 ". split; reflexivity.
Defined.

(** No selected item has an image that mentions webp. *)
Lemma selected_images_have_no_webp (w : World) (cfg : config) (s s' : state)
    (sel : list news_item) :
  fetch_news w cfg s = (s', inr sel) ->
  forall n, n ∈ sel -> ~ ci_contains "webp" (image n).
Proof.
  intros H n Hn Hc. apply fetch_news_run in H as (loc & Hv & Hsel).
  destruct (Hsel sel eq_refl)
    as (s1 & recent & shuffled & _ & Hsub & Hperm & Heq & _).
  destruct (sublist_take_shuffled _ _ _ _ Hperm Hsub Heq n Hn) as [_ Hin].
  destruct (visits_ok _ _ _ _ Hv locals_ok_empty) as (_ & _ & Hwebp).
  apply ci_contains_lower in Hc. rewrite (Hwebp n Hin) in Hc. discriminate.
Qed.

(** C8.  An iteration that ends at the webp test has put the article's url
    into [seen_links] without adding a candidate; every later iteration
    of the run on an article with the same url ends at the membership
    test (unless its timestamp already ended it), whatever its image, and
    no selected item carries that url. *)
Theorem webp_rejection_claims_url (w : World) :
  (forall a loc s s' loc',
     article_step w a loc s = (s', inr (loc', WebpImage)) ->
     exists k, article_key a = Some k /\ k ∈ seen_links loc'
               /\ all_news loc' = all_news loc)
  /\ (forall cfg s s' r pre mid post a b vb,
        fetch_news w cfg s = (s', r) ->
        visits_of (events_since s s')
          = pre ++ (a, WebpImage) :: mid ++ (b, vb) :: post ->
        same_url a b ->
        (vb = SeenUrl \/ early vb)
        /\ (forall sel n, r = inr sel -> n ∈ sel -> item_key n <> article_key a)).
Proof.
  split.
  - intros a loc s s' loc' H.
    apply article_step_outcome in H as (_ & _ & _ & _ & H).
    destruct (step_outcome_claimed _ _ _ _ _ H) as (k & Hk & _ & Hin);
      [unfold claimed; auto |].
    exists k. repeat split; auto.
    eapply step_outcome_not_kept; eauto.
  - intros cfg s s' r pre mid post a b vb H Hvs Hsame.
    apply fetch_news_run in H as (loc & Hv & Hsel).
    rewrite Hvs in Hv. split.
    + eapply visits_first_claims; eauto. unfold claimed. auto.
    + intros sel n -> Hn.
      destruct (Hsel sel eq_refl)
        as (s1 & recent & shuffled & _ & Hsub & Hperm & Heq & _).
      destruct (sublist_take_shuffled _ _ _ _ Hperm Hsub Heq n Hn) as [_ Hin].
      eapply visits_webp_url_absent; eauto using locals_ok_empty.
Qed.

Lemma webp_rejection_claims_url_witness :
  (SeenUrl = SeenUrl \/ early SeenUrl)
  /\ (forall sel n,
        (fetch_news (Scenario.world_of 200 Scenario.mixed) Scenario.cfg initial).2
          = inr sel ->
        n ∈ sel -> item_key n <> Some (Some (inr "https://n/2"))).
Proof.
  set (run := fetch_news (Scenario.world_of 200 Scenario.mixed) Scenario.cfg initial).
  refine (proj2 (webp_rejection_claims_url (Scenario.world_of 200 Scenario.mixed))
            Scenario.cfg initial run.1 run.2
            (take 2 (visits_of (events_since initial run.1))) []
            (drop 4 (visits_of (events_since initial run.1)))
            (Scenario.article "https://n/2" "2024-03-11T07:00:00Z"
               [("urlToImage", JStr " https://img/a.WebP?x=1 ")])
            (Scenario.article "https://n/2" "2024-03-11T07:30:00Z"
               [("urlToImage", JStr "https://img/a.png")])
            SeenUrl (surjective_pairing _) _ _).
  - vm_compute. reflexivity.
  - exists (Some (inr "https://n/2")). split; reflexivity.
Defined.

(** ** Selection *)




(** C3, as the code has it.  Every selected item passed the test of line
    103: its timestamp is not more than two days before the clock reading
    taken for it, one of the readings of this run; the test sets no upper
    bound.  If every candidate that passed the 360-day filter is more than
    two days older than every reading of the clock, nothing is selected. *)
Theorem selection_is_recent (w : World) (cfg : config) (s s' : state)
    (sel : list news_item) :
  fetch_news w cfg s = (s', inr sel) ->
  (forall n, n ∈ sel ->
     exists k, (clock_reads s <= k < clock_reads s')%nat
               /\ utcnow w k - timedelta 2 <= published_dt n)
  /\ (forall s1 loc,
        for_keywords w cfg KEYWORDS (Locals ∅ []) s = (s1, inr loc) ->
        (forall n k, n ∈ all_news loc ->
           published_dt n < utcnow w k - timedelta 2) ->
        sel = []).
Proof.
  intros H. apply fetch_news_run in H as (loc & Hv & Hsel).
  destruct (Hsel sel eq_refl)
    as (s1 & recent & shuffled & Hk & Hsub & Hperm & Heq & Hin & Hno).
  split.
  - intros n Hn.
    destruct (sublist_take_shuffled _ _ _ _ Hperm Hsub Heq n Hn) as [Hr _].
    auto.
  - intros s2 loc2 Hk2 Hold. rewrite Hk in Hk2. injection Hk2 as <- <-.
    rewrite (Hno Hold) in Hperm. apply Permutation_nil_r in Hperm.
    by rewrite Heq, Hperm.
Qed.

Lemma selection_is_recent_witness :
  (forall n,
     n ∈ [NewsItem JNull (JStr "") (JStr "https://n/3") "" "2024-03-10 23:00"
            (Iso.micros 2024 3 10 23 0 0) (JStr "") "";
          NewsItem (JStr "first") (JStr "") (JStr "https://n/1") ""
            "2024-03-11 08:00" (Iso.micros 2024 3 11 8 0 0) (JStr "") ""] ->
     exists k, (0 <= k < 9)%nat
               /\ Scenario.noon + 1000 * Z.of_nat k - timedelta 2
                  <= published_dt n)
  /\ (forall sel,
        (fetch_news (Scenario.world_of 200 Scenario.stale) Scenario.cfg initial).2
          = inr sel ->
        sel = []).
Proof.
  split.
  - set (w := Scenario.world_of 200 Scenario.mixed).
    set (run := fetch_news w Scenario.cfg initial).
    refine (proj1 (selection_is_recent w Scenario.cfg initial
                     (State 9 1 1 (trace run.1)) _ _)).
    vm_compute. reflexivity.
  - set (w := Scenario.world_of 200 Scenario.stale).
    set (run := fetch_news w Scenario.cfg initial).
    set (col := for_keywords w Scenario.cfg KEYWORDS (Locals ∅ []) initial).
    set (loc := match col.2 with inr l => l | inl _ => Locals ∅ [] end).
    assert (Hcol : col = (col.1, inr loc)) by (vm_compute; reflexivity).
    assert (Hall : Forall (fun n => published_dt n = Iso.micros 2024 3 1 12 0 0)
                     (all_news loc)) by (vm_compute; repeat constructor).
    intros sel Hsel.
    assert (Hrun : run = (run.1, inr sel))
      by (rewrite <- Hsel; apply surjective_pairing).
    refine (proj2 (selection_is_recent w Scenario.cfg initial run.1 sel Hrun)
              col.1 loc Hcol _).
    intros n k Hn. rewrite Forall_forall in Hall. rewrite (Hall n Hn).
    change (utcnow w k) with (Scenario.noon + 1000 * Z.of_nat k).
    assert (Hm : Iso.micros 2024 3 1 12 0 0 + timedelta 10 = Scenario.noon)
      by (vm_compute; reflexivity).
    unfold timedelta in *. lia.
Defined.

(** An article dated 2030-01-01, fetched while the clock reads 2024-03-11:
    it passes the test of line 103 and is selected, though its timestamp
    lies more than 2000 days after every reading of the run. *)
Lemma future_article_is_selected :
  exists s1 item,
    fetch_news (Scenario.world_of 200 Scenario.future) Scenario.cfg initial
      = (s1, inr [item])
    /\ published item = "2030-01-01 00:00"
    /\ forall k, (k < clock_reads s1)%nat ->
         utcnow (Scenario.world_of 200 Scenario.future) k + timedelta 2000
           < published_dt item.
Proof.
  eexists _, _. split; [vm_compute; reflexivity |].
  split; [reflexivity |].
  intros k Hk. cbn [clock_reads] in Hk. cbn [published_dt].
  change (utcnow _ k) with (Scenario.noon + 1000 * Z.of_nat k).
  assert (Hn : Scenario.noon = 63845841600000000) by (vm_compute; reflexivity).
  rewrite Hn. unfold timedelta. lia.
Qed.

(** * Further properties *)

(** ** Configuration *)

(** X1.  [load_config] either finds the three secrets, all non-empty, and
    returns exactly those values, or raises [ValueError] because one of
    them is absent or empty; in both cases the state is untouched. *)
Theorem load_config_outcome (w : World) (s : state) :
  (exists k h x,
     getenv w "NEWSAPI_KEY" = Some k
     /\ getenv w "DINGTALK_WEBHOOK" = Some h
     /\ getenv w "DINGTALK_SECRET" = Some x
     /\ k <> "" /\ h <> "" /\ x <> ""
     /\ load_config w s = (s, inr (Config k h x)))
  \/ ((exists name,
         name ∈ required_secrets
         /\ (getenv w name = None \/ getenv w name = Some ""))
      /\ load_config w s = (s, inl ValueError)).
Proof.
  unfold load_config, required_secrets.
  destruct (getenv w "NEWSAPI_KEY") as [[|c1 k]|] eqn:E1;
    try (right; split; [exists "NEWSAPI_KEY"; split; [set_solver | auto]
                       | reflexivity]).
  destruct (getenv w "DINGTALK_WEBHOOK") as [[|c2 h]|] eqn:E2;
    try (right; split; [exists "DINGTALK_WEBHOOK"; split; [set_solver | auto]
                       | reflexivity]).
  destruct (getenv w "DINGTALK_SECRET") as [[|c3 x]|] eqn:E3;
    try (right; split; [exists "DINGTALK_SECRET"; split; [set_solver | auto]
                       | reflexivity]).
  left. exists (String c1 k), (String c2 h), (String c3 x).
  repeat split; auto; discriminate.
Qed.

(** ** Selection *)

Lemma recent_only_state (w : World) (news : list news_item) (s : state) :
  exists kept,
    recent_only w news s =
      (State (clock_reads s + length news) (draws s) (requests s) (trace s),
       inr kept).
Proof.
  revert s. induction news as [|m rest IH]; intros s; simpl.
  - exists []. unfold ret. rewrite Nat.add_0_r. by destruct s.
  - destruct (IH (tick s)) as (kept & Hrun).
    unfold bind at 1, read_utcnow. unfold bind at 1. rewrite Hrun. simpl.
    replace (S (clock_reads s + length rest))
      with (clock_reads s + S (length rest))%nat by lia.
    eexists. reflexivity.
Qed.

(** X2.  The comprehension of line 103 reads the clock once per candidate,
    in order, and keeps exactly the candidates that are not more than two
    days older than their own reading; the order of the candidates is
    kept and nothing else changes in the state. *)
Theorem two_day_filter_exact (w : World) (news : list news_item) (s : state) :
  exists kept,
    recent_only w news s =
      (State (clock_reads s + length news) (draws s) (requests s) (trace s),
       inr kept)
    /\ kept `sublist_of` news
    /\ forall n,
         n ∈ kept <->
         exists i, news !! i = Some n
                   /\ utcnow w (clock_reads s + i) - timedelta 2
                      <= published_dt n.
Proof.
  revert s. induction news as [|m rest IH]; intros s; simpl.
  - exists []. unfold ret. rewrite Nat.add_0_r. destruct s.
    repeat split; auto.
    + intros Hn. inversion Hn.
    + intros (i & Hi & _). discriminate.
  - destruct (IH (tick s)) as (kept & Hrun & Hsub & Hiff).
    unfold bind at 1, read_utcnow. unfold bind at 1. rewrite Hrun. simpl.
    replace (S (clock_reads s + length rest))
      with (clock_reads s + S (length rest))%nat by lia.
    eexists. split; [reflexivity |].
    assert (Hrest : forall n,
              n ∈ kept <->
              exists i, (m :: rest) !! S i = Some n
                        /\ utcnow w (clock_reads s + S i) - timedelta 2
                           <= published_dt n).
    { intros n. rewrite Hiff. simpl.
      split; intros (i & Hi & Hb); exists i; split; auto;
        [rewrite Nat.add_succ_r | rewrite Nat.add_succ_r in Hb]; exact Hb. }
    destruct (published_dt m >=? _) eqn:E.
    + split; [by constructor |]. intros n. rewrite elem_of_cons, Hrest.
      split.
      * intros [->|(i & Hi)]; [| by exists (S i)].
        exists O. rewrite Nat.add_0_r. split; [reflexivity | lia].
      * intros ([|i] & Hi & Hb); [| right; by exists i].
        left. simpl in Hi. congruence.
    + split; [by constructor |]. intros n. rewrite Hrest.
      split.
      * intros (i & Hi). by exists (S i).
      * intros ([|i] & Hi & Hb); [| by exists i].
        simpl in Hi. injection Hi as <-. rewrite Nat.add_0_r in Hb. lia.
Qed.

Lemma fetch_news_stages w cfg s s' sel :
  fetch_news w cfg s = (s', inr sel) ->
  exists s1 loc recent shuffled,
    for_keywords w cfg KEYWORDS (Locals ∅ []) s = (s1, inr loc)
    /\ recent_only w (all_news loc) s1 =
         (State (clock_reads s1 + length (all_news loc)) (draws s1)
            (requests s1) (trace s1), inr recent)
    /\ shuffled ≡ₚ recent
    /\ sel = take NEWS_LIMIT shuffled
    /\ draws s' = (draws s1 + (length recent - 1))%nat.
Proof.
  unfold fetch_news. intros H.
  apply bind_inv in H as [(s1 & loc & Hk & H)|(e & _ & ?)]; [| discriminate].
  destruct (recent_only_state w (all_news loc) s1) as (recent & Hrun).
  unfold bind at 1 in H. rewrite Hrun in H.
  unfold bind at 1, print, emit in H.
  match type of H with
  | bind (shuffle w recent) _ ?s2 = _ =>
      destruct (shuffle_spec w recent s2) as (shuffled & Hsh & Hperm)
  end.
  unfold bind in H. rewrite Hsh in H. inversion H; subst; clear H.
  exists s1, loc, recent, shuffled. simpl. repeat split; auto.
Qed.

(** X3.  [fetch_news] returns [min(NEWS_LIMIT, r)] of the [r] candidates
    that passed the two-day test, each of them at most once; when there
    are no more than [NEWS_LIMIT] of them it returns them all, in some
    order.  The shuffle takes [r - 1] random draws. *)
Theorem selection_takes_up_to_limit (w : World) (cfg : config) (s s' : state)
    (sel : list news_item) :
  fetch_news w cfg s = (s', inr sel) ->
  exists s1 s2 loc recent,
    for_keywords w cfg KEYWORDS (Locals ∅ []) s = (s1, inr loc)
    /\ recent_only w (all_news loc) s1 = (s2, inr recent)
    /\ length sel = Nat.min NEWS_LIMIT (length recent)
    /\ sel ⊆+ recent
    /\ ((length recent <= NEWS_LIMIT)%nat -> sel ≡ₚ recent)
    /\ draws s' = (draws s + (length recent - 1))%nat.
Proof.
  intros H.
  destruct (fetch_news_stages _ _ _ _ _ H)
    as (s1 & loc & recent & shuffled & Hk & Hrec & Hperm & -> & Hd).
  pose proof (for_keywords_spec _ _ _ _ _ _ _ Hk) as (_ & _ & _ & Hd1 & _).
  eexists s1, _, loc, recent. split; [exact Hk | split; [exact Hrec |]].
  repeat split.
  - rewrite length_take. by rewrite (Permutation_length Hperm).
  - rewrite <- Hperm. apply sublist_submseteq, sublist_take.
  - intros Hle. rewrite take_ge; [exact Hperm |].
    by rewrite (Permutation_length Hperm).
  - congruence.
Qed.

Lemma selection_takes_up_to_limit_witness :
  exists sel recent,
    (fetch_news (Scenario.world_of 200 Scenario.mixed) Scenario.cfg initial).2
      = inr sel
    /\ length sel = Nat.min NEWS_LIMIT (length recent)
    /\ sel ≡ₚ recent /\ length recent = 2%nat.
Proof.
  set (w := Scenario.world_of 200 Scenario.mixed).
  set (run := fetch_news w Scenario.cfg initial).
  set (sel := match run.2 with inr l => l | inl _ => [] end).
  assert (Hrun : run = (run.1, inr sel)) by (vm_compute; reflexivity).
  destruct (selection_takes_up_to_limit w Scenario.cfg initial run.1 sel Hrun)
    as (s1 & s2 & loc & recent & _ & _ & Hlen & _ & Hall & _).
  assert (Hn : length sel = 2%nat) by (vm_compute; reflexivity).
  assert (Hr : length recent = 2%nat).
  { rewrite Hn in Hlen. unfold NEWS_LIMIT in Hlen. lia. }
  exists sel, recent. rewrite Hrun. repeat split; auto.
  apply Hall. unfold NEWS_LIMIT. lia.
Defined.

(** ** Candidates *)

Lemma kept_urls_cons a v vs :
  kept_urls ((a, v) :: vs) =
  if is_kept v then article_url a :: kept_urls vs else kept_urls vs.
Proof. unfold kept_urls. simpl. by destruct (is_kept v). Qed.

Lemma early_is_not_kept v : early v -> is_kept v = false.
Proof. unfold early. intros [->|[->| ->]]; reflexivity. Qed.

Lemma visits_kept_urls w loc vs loc' :
  visits w loc vs loc' ->
  url <$> all_news loc' = (url <$> all_news loc) ++ kept_urls vs.
Proof.
  induction 1 as [|loc a v loc1 vs loc2 Hs _ IH].
  - by rewrite app_nil_r.
  - rewrite IH, kept_urls_cons. clear IH.
    destruct Hs as [v He| |k|k|k item _ _ _ _ Hitem]; simpl; auto.
    + by rewrite (early_is_not_kept v He).
    + destruct Hitem as (Hurl & _).
      rewrite fmap_app, <- app_assoc. simpl. by rewrite Hurl.
Qed.

Lemma visits_truthy_urls w loc vs loc' :
  visits w loc vs loc' ->
  (forall n, n ∈ all_news loc -> truthy (url n) = true) ->
  forall n, n ∈ all_news loc' -> truthy (url n) = true.
Proof.
  induction 1 as [|loc a v loc1 vs loc2 Hs _ IH]; [auto |].
  intros Hall. apply IH. clear IH.
  destruct Hs as [v He| |k|k|k item Ht _ _ _ Hitem]; simpl; auto.
  intros n Hn. apply elem_of_app in Hn as [Hn|Hn]; [auto |].
  apply list_elem_of_singleton in Hn. subst n.
  destruct Hitem as (Hurl & _). by rewrite Hurl.
Qed.

(** X4.  Whatever the keywords, the loop appends one candidate per article
    whose visit reached line 91, in the order of the visits (fetch order:
    keyword by keyword, each answer in the order the API gave it); the
    candidate carries the article's url unchanged. *)
Theorem candidates_in_visit_order (w : World) (cfg : config)
    (keywords : list string) (s s' : state) (loc : locals) :
  for_keywords w cfg keywords (Locals ∅ []) s = (s', inr loc) ->
  url <$> all_news loc = kept_urls (visits_of (events_since s s')).
Proof.
  intros H.
  apply for_keywords_spec in H as (evs & loc_end & Ht & _ & _ & Hv & Hres).
  rewrite (Hres loc eq_refl) in Hv.
  rewrite (events_since_app _ _ _ Ht).
  by rewrite (visits_kept_urls _ _ _ _ Hv).
Qed.

Lemma candidates_in_visit_order_witness :
  exists loc,
    (for_keywords (Scenario.world_of 200 Scenario.mixed) Scenario.cfg
       ["sewing thread"; "embroidery"] (Locals ∅ []) initial).2 = inr loc
    /\ url <$> all_news loc
       = [JStr "https://n/1"; JStr "https://n/3"; JStr "https://n/4"].
Proof.
  set (w := Scenario.world_of 200 Scenario.mixed).
  set (run := for_keywords w Scenario.cfg ["sewing thread"; "embroidery"]
                (Locals ∅ []) initial).
  set (loc := match run.2 with inr l => l | inl _ => Locals ∅ [] end).
  assert (Hrun : run = (run.1, inr loc)) by (vm_compute; reflexivity).
  exists loc. split; [by rewrite Hrun |].
  rewrite (candidates_in_visit_order w Scenario.cfg _ initial run.1 loc Hrun).
  vm_compute. reflexivity.
Defined.

(** X5.  [seen_links] lives across the keywords: after the loop over any
    list of keywords the candidates have pairwise distinct urls (distinct
    as Python values), every url is truthy and hashable, and it is a
    member of [seen_links]. *)
Theorem dedup_spans_keywords (w : World) (cfg : config)
    (keywords : list string) (s s' : state) (loc : locals) :
  for_keywords w cfg keywords (Locals ∅ []) s = (s', inr loc) ->
  NoDup (url <$> all_news loc)
  /\ NoDup (item_key <$> all_news loc)
  /\ forall n, n ∈ all_news loc ->
       truthy (url n) = true
       /\ exists k, hash_key (url n) = Some k /\ k ∈ seen_links loc.
Proof.
  intros H.
  apply for_keywords_spec in H as (evs & loc_end & _ & _ & _ & Hv & Hres).
  rewrite (Hres loc eq_refl) in Hv.
  destruct (visits_ok _ _ _ _ Hv locals_ok_empty) as (Hnd & Hin & _).
  split; [| split; [exact Hnd |]].
  - apply (NoDup_fmap_1 hash_key). by rewrite <- list_fmap_compose.
  - intros n Hn. split; [| by apply Hin].
    eapply visits_truthy_urls; eauto. intros m Hm. inversion Hm.
Qed.

Lemma dedup_spans_keywords_witness :
  exists loc,
    (for_keywords (Scenario.world_of 200 Scenario.mixed) Scenario.cfg
       ["sewing thread"; "embroidery"] (Locals ∅ []) initial).2 = inr loc
    /\ length (all_news loc) = 3%nat
    /\ NoDup (url <$> all_news loc).
Proof.
  set (w := Scenario.world_of 200 Scenario.mixed).
  set (run := for_keywords w Scenario.cfg ["sewing thread"; "embroidery"]
                (Locals ∅ []) initial).
  set (loc := match run.2 with inr l => l | inl _ => Locals ∅ [] end).
  assert (Hrun : run = (run.1, inr loc)) by (vm_compute; reflexivity).
  exists loc. split; [by rewrite Hrun |].
  split; [vm_compute; reflexivity |].
  exact (proj1 (dedup_spans_keywords w Scenario.cfg _ initial run.1 loc Hrun)).
Defined.

(** ** The 360-day window *)

(** When and against what the timestamp of an article is tested. *)
Lemma article_step_timing w a loc s s' loc' v :
  article_step w a loc s = (s', inr (loc', v)) ->
  (v = NoTimestamp \/ v = BadTimestamp -> s' = s /\ loc' = loc)
  /\ (v <> NoTimestamp -> v <> BadTimestamp ->
      exists t,
        parse_published w (field a "publishedAt" JNull) = Some t
        /\ s' = tick s
        /\ (v = TooOld <->
            t < utcnow w (clock_reads s) - timedelta DAYS_FILTER)
        /\ (v = TooOld -> loc' = loc)).
Proof.
  unfold article_step. intros H.
  destruct a as [| | | |?|members]; try discriminate.
  cbv [bind ret raise py_get py_hash read_utcnow] in H. unfold field.
  destruct (truthy (default JNull (dict_get "publishedAt" members))) eqn:Epa;
    simpl in H; [| inversion H; subst; split; [auto | congruence]].
  destruct (parse_published w _) as [t|] eqn:Eparse;
    [| inversion H; subst; split; [auto | congruence]].
  destruct (t <? _) eqn:Eold.
  { apply Z.ltb_lt in Eold. inversion H; subst.
    split; [intros [?|?]; discriminate |].
    intros _ _. exists t. repeat split; auto. }
  apply Z.ltb_ge in Eold.
  assert (Hrest : forall l0 v0,
            v0 <> TooOld -> v0 <> NoTimestamp -> v0 <> BadTimestamp ->
            (tick s, @inr exn (locals * verdict) (l0, v0))
              = (s', inr (loc', v)) ->
            (v = NoTimestamp \/ v = BadTimestamp -> s' = s /\ loc' = loc)
            /\ (v <> NoTimestamp -> v <> BadTimestamp ->
                exists t0,
                  Some t = Some t0 /\ s' = tick s
                  /\ (v = TooOld <->
                      t0 < utcnow w (clock_reads s) - timedelta DAYS_FILTER)
                  /\ (v = TooOld -> loc' = loc))).
  { intros l0 v0 H1 H2 H3 E. inversion E; subst.
    split; [intros [?|?]; congruence |].
    intros _ _. exists t. repeat split; auto; [congruence | lia | congruence]. }
  destruct (truthy (default JNull (dict_get "url" members))); simpl in H;
    [| eapply Hrest; [| | | exact H]; discriminate].
  destruct (hash_key _) as [k|]; [| discriminate].
  destruct (bool_decide _);
    [eapply Hrest; [| | | exact H]; discriminate |].
  destruct (default (JObj []) (dict_get "source" members)); try discriminate.
  destruct (Str.contains _ _);
    (eapply Hrest; [| | | exact H]; discriminate).
Qed.

Section Invariants.

Context (w : World) (cfg : config).

(** A property of the locals at a number of clock readings, kept by
    every iteration. *)
Context (J : locals -> nat -> Prop).
Context (J_step : forall a loc s s' loc' v,
           article_step w a loc s = (s', inr (loc', v)) ->
           J loc (clock_reads s) -> J loc' (clock_reads s')).

Lemma for_articles_keeps items loc s s' loc' :
  for_articles w items loc s = (s', inr loc') ->
  J loc (clock_reads s) -> J loc' (clock_reads s').
Proof.
  revert loc s. induction items as [|a rest IH]; intros loc s H HJ; simpl in H.
  - inversion H; subst. exact HJ.
  - apply bind_inv in H as [(s1 & [loc1 v] & Hstep & H)|(e & _ & ?)];
      [| discriminate].
    simpl in H. unfold bind at 1, emit in H.
    apply IH in H; [exact H |]. simpl. eapply J_step; eauto.
Qed.

Lemma for_keywords_keeps keywords loc s s' loc' :
  for_keywords w cfg keywords loc s = (s', inr loc') ->
  J loc (clock_reads s) -> J loc' (clock_reads s').
Proof.
  revert loc s. induction keywords as [|kw rest IH]; intros loc s H HJ;
    simpl in H.
  - inversion H; subst. exact HJ.
  - unfold bind at 1, print, emit in H.
    apply bind_inv in H as [(s1 & resp & Hget & H)|(e & _ & ?)];
      [| discriminate].
    unfold http_get in Hget. destruct (requests_get w _ _); [| discriminate].
    inversion Hget; subst; clear Hget.
    destruct (negb (status_code resp =? 200)).
    { unfold bind at 1, print, emit in H. apply IH in H; auto. }
    apply bind_inv in H as [(s2 & body & Hj & H)|(e & _ & ?)]; [| discriminate].
    unfold response_json in Hj. destruct (json_body resp); [| discriminate].
    inversion Hj; subst; clear Hj.
    apply bind_inv in H as [(s2 & articles & Hj & H)|(e & _ & ?)];
      [| discriminate].
    unfold py_get in Hj. destruct body; try discriminate.
    inversion Hj; subst; clear Hj.
    apply bind_inv in H as [(s2 & n & Hj & H)|(e & _ & ?)]; [| discriminate].
    unfold py_len in Hj.
    destruct (default (JArr []) _) eqn:Eart; try discriminate;
      inversion Hj; subst; clear Hj.
    all: unfold bind at 1, print, emit in H.
    all: apply bind_inv in H as [(s2 & its & Hj & H)|(e & _ & ?)];
      [| discriminate]; inversion Hj; subst; clear Hj.
    all: apply bind_inv in H as [(s2 & loc1 & Hj & H)|(e & _ & ?)];
      [| discriminate].
    all: apply for_articles_keeps in Hj; [| exact HJ].
    all: apply IH in H; auto.
Qed.

End Invariants.

(** X6.  An article is skipped as too old exactly when its parsed timestamp
    is more than [DAYS_FILTER = 360] days before the clock reading taken
    for it, and then the locals are unchanged; the clock is read only for
    an article whose timestamp parsed.  So every candidate of the loop over
    the keywords is at most 360 days older than a reading of that loop. *)
Theorem recency_window (w : World) :
  (forall a loc s s' loc' v,
     article_step w a loc s = (s', inr (loc', v)) ->
     v <> NoTimestamp -> v <> BadTimestamp ->
     exists t,
       parse_published w (field a "publishedAt" JNull) = Some t
       /\ s' = tick s
       /\ (v = TooOld <-> t < utcnow w (clock_reads s) - timedelta 360)
       /\ (v = TooOld -> loc' = loc))
  /\ (forall cfg keywords s s' loc,
        for_keywords w cfg keywords (Locals ∅ []) s = (s', inr loc) ->
        forall n, n ∈ all_news loc ->
          exists k, (clock_reads s <= k < clock_reads s')%nat
                    /\ utcnow w k - timedelta 360 <= published_dt n).
Proof.
  split.
  - intros a loc s s' loc' v H. by apply (article_step_timing _ _ _ _ _ _ _ H).
  - intros cfg keywords s s' loc H.
    set (J := fun (l : locals) (c : nat) =>
                (clock_reads s <= c)%nat
                /\ forall n, n ∈ all_news l ->
                     exists k, (clock_reads s <= k < c)%nat
                               /\ utcnow w k - timedelta 360 <= published_dt n).
    assert (HJ : J loc (clock_reads s')).
    { apply (for_keywords_keeps w cfg J) with (keywords := keywords)
        (loc := Locals ∅ []) (s := s); [| exact H |].
      - clear. intros a loc s1 s2 loc' v Hstep [Hc Hall].
        pose proof (article_step_outcome _ _ _ _ _ _ Hstep)
          as (_ & _ & _ & Hmono & Hout).
        split; [lia |].
        assert (Hcase : v = Kept \/ v <> Kept)
          by (destruct v; auto; right; discriminate).
        destruct Hcase as [-> | Hv].
        + destruct (article_step_kept _ _ _ _ _ _ Hstep)
            as (item & Happ & Hitem).
          destruct (proj2 (article_step_timing _ _ _ _ _ _ _ Hstep))
            as (t & Ht & -> & Hold & _); try discriminate.
          destruct Hitem as (_ & _ & _ & _ & Hparse & _).
          rewrite Hparse in Ht. injection Ht as <-.
          intros n Hn. rewrite Happ in Hn.
          apply elem_of_app in Hn as [Hn|Hn].
          * destruct (Hall n Hn) as (k & Hk & Hb). exists k.
            simpl. split; [lia | exact Hb].
          * apply list_elem_of_singleton in Hn. subst n.
            exists (clock_reads s1). simpl. split; [lia |].
            unfold DAYS_FILTER in Hold.
            destruct (Z_lt_le_dec (published_dt item)
                        (utcnow w (clock_reads s1) - timedelta 360));
              [| assumption].
            apply Hold in l. discriminate.
        + rewrite (step_outcome_not_kept _ _ _ _ _ Hout Hv).
          intros n Hn. destruct (Hall n Hn) as (k & Hk & Hb).
          exists k. split; [lia | exact Hb].
      - split; [lia |]. intros n Hn. inversion Hn. }
    exact (proj2 HJ).
Qed.

Lemma recency_window_witness :
  exists loc,
    (for_keywords (Scenario.world_of 200 Scenario.mixed) Scenario.cfg
       KEYWORDS (Locals ∅ []) initial).2 = inr loc
    /\ forall n, n ∈ all_news loc ->
         exists k, (0 <= k < 6)%nat
                   /\ Scenario.noon + 1000 * Z.of_nat k - timedelta 360
                      <= published_dt n.
Proof.
  set (w := Scenario.world_of 200 Scenario.mixed).
  set (run := for_keywords w Scenario.cfg KEYWORDS (Locals ∅ []) initial).
  set (loc := match run.2 with inr l => l | inl _ => Locals ∅ [] end).
  assert (Hrun : run = (State 6 0 1 (trace run.1), inr loc))
    by (vm_compute; reflexivity).
  exists loc. split; [by rewrite Hrun |].
  exact (proj2 (recency_window w) Scenario.cfg KEYWORDS initial _ loc Hrun).
Defined.

(** ** The signed URL *)

Lemma ascii_of_byte_of c : Bytes.ascii_of_byte (Bytes.byte_of_ascii c) = c.
Proof.
  unfold Bytes.ascii_of_byte, Bytes.byte_of_ascii.
  pose proof (N_ascii_bounded c) as Hb.
  rewrite Z.mod_small by lia. rewrite N2Z.id. apply ascii_N_embedding.
Qed.

Lemma sextet_base64 i : base64_char (Base64.sextet i) = true.
Proof.
  unfold Base64.sextet.
  destruct (nth_in_or_default (Z.to_nat i) Base64.alphabet "A"%char) as [H|H];
    [| rewrite H; reflexivity].
  revert H. generalize (nth (Z.to_nat i) Base64.alphabet "A"%char). intros c H.
  assert (Hall : forallb base64_char Base64.alphabet = true)
    by (vm_compute; reflexivity).
  rewrite forallb_forall in Hall. by apply Hall.
Qed.

Lemma encode_base64 bs : all_chars base64_char (Base64.encode bs) = true.
Proof.
  remember (length bs) as n eqn:Hn. revert bs Hn.
  induction n as [n IH] using lt_wf_ind. intros bs Hn.
  destruct bs as [|b0 [|b1 [|b2 r]]]; simpl; rewrite ?sextet_base64; simpl;
    try reflexivity.
  apply (IH (length r)); [simpl in Hn; lia | reflexivity].
Qed.

Lemma hex_digit_plain n : plain_char (Urllib.hex_digit n) = true.
Proof.
  unfold Urllib.hex_digit.
  set (digits := list_ascii_of_string "0123456789ABCDEF").
  destruct (nth_in_or_default (Z.to_nat n) digits "0"%char) as [H|H];
    [| rewrite H; reflexivity].
  revert H. generalize (nth (Z.to_nat n) digits "0"%char). intros c H.
  assert (Hall : forallb plain_char digits = true) by (vm_compute; reflexivity).
  rewrite forallb_forall in Hall. by apply Hall.
Qed.

Lemma base64_has_no_space s :
  all_chars base64_char s = true -> Urllib.has_space s = false.
Proof.
  intros H. unfold Urllib.has_space. apply bool_decide_eq_false.
  induction s as [|c r IH]; simpl in *; [apply not_elem_of_nil |].
  apply andb_true_iff in H as [Hc Hr].
  apply not_elem_of_cons. split; [| by apply IH].
  intros E. unfold base64_char in Hc. rewrite <- E in Hc. discriminate.
Qed.

Lemma quote_base64_plain s :
  all_chars base64_char s = true ->
  all_chars plain_char (Urllib.quote s "") = true.
Proof.
  unfold Urllib.quote.
  induction s as [|c r IH]; simpl; [reflexivity |].
  intros H. apply andb_true_iff in H as [Hc Hr].
  change (Urllib.in_safe "" (Bytes.byte_of_ascii c)) with false.
  rewrite orb_false_r.
  destruct (Urllib.always_safe (Bytes.byte_of_ascii c)) eqn:Esafe; simpl.
  - rewrite ascii_of_byte_of, (IH Hr), andb_true_r.
    unfold plain_char. apply orb_true_iff. left.
    unfold base64_char, base64_byte, Urllib.always_safe in *.
    destruct (Urllib.is_alnum (Bytes.byte_of_ascii c)); [reflexivity |].
    simpl in *. lia.
  - by rewrite !hex_digit_plain, (IH Hr).
Qed.

(** X7.  The URL [sign_url] returns is the webhook base followed by
    [&timestamp=], the decimal reading, [&sign=] and a signature made of
    letters, digits and percent signs only: the characters [+], [/] and
    [=] of the base64 text are all percent-encoded, and none is turned
    into a [+]. *)
Theorem sign_is_url_safe (w : World) (cfg : config) (s : state) :
  exists sign,
    sign_url w cfg s =
      (tick s,
       inr (DINGTALK_WEBHOOK cfg +:+ "&timestamp=" +:+
            pretty (time_ms w (clock_reads s)) +:+ "&sign=" +:+ sign))
    /\ all_chars plain_char sign = true.
Proof.
  exists (Urllib.quote_plus
            (Base64.b64encode
               (Bytes.of_list
                  (HMAC.sha256 (Bytes.to_list (DINGTALK_SECRET cfg))
                     (Bytes.to_list
                        (pretty (time_ms w (clock_reads s)) +:+
                         Str.newline +:+ DINGTALK_SECRET cfg)))))).
  split; [reflexivity |].
  unfold Urllib.quote_plus, Base64.b64encode.
  rewrite base64_has_no_space by apply encode_base64.
  apply quote_base64_plain, encode_base64.
Qed.

(** ** Requests *)

Lemma requests_of_app t1 t2 :
  requests_of (t1 ++ t2) = requests_of t1 ++ requests_of t2.
Proof. apply List.filter_app. Qed.

Lemma requests_of_visit_events vs : requests_of (visit_event <$> vs) = [].
Proof. induction vs as [|[a v] vs IH]; [reflexivity | exact IH]. Qed.

Section Requests.

Context (w : World) (cfg : config).

Lemma asks_stop {A} kws s s' (r : exn + A) evs :
  trace s' = trace s ++ evs -> requests s' = requests s ->
  requests_of evs = [] -> (forall a, r <> inr a) ->
  asks cfg kws s s' r.
Proof.
  intros Ht Hr Hn Hf. exists evs, O. rewrite Hn, Hr, Nat.add_0_r.
  repeat split; auto; [lia |]. intros a E. by destruct (Hf a).
Qed.

Lemma asks_skip {A} kws s s1 s' (r : exn + A) evs :
  trace s1 = trace s ++ evs -> requests s1 = requests s ->
  requests_of evs = [] -> asks cfg kws s1 s' r -> asks cfg kws s s' r.
Proof.
  intros Ht Hr Hn (evs' & j & Ht' & Hr' & Hj & Hreq & Hok).
  exists (evs ++ evs'), j. rewrite requests_of_app, Hn. simpl.
  rewrite Ht', Ht, app_assoc. repeat split; auto. congruence.
Qed.

Lemma asks_cons {A} kw rest s s' (r : exn + A) :
  asks cfg rest (asked cfg kw s) s' r -> asks cfg (kw :: rest) s s' r.
Proof.
  intros (evs & j & Ht & Hr & Hj & Hreq & Hok).
  exists ([Print (MsgFetching kw); get_for cfg kw] ++ evs), (S j).
  rewrite requests_of_app, Hreq. simpl in *.
  rewrite Ht, <- !app_assoc. simpl.
  repeat split; auto; [lia | lia |]. intros a E. by rewrite (Hok a E).
Qed.

Ltac stop_with Hstop :=
  match goal with
  | |- asks _ _ _ _ (inl ?e) =>
      let Hs := fresh in
      pose proof (Hstop e [] eq_refl) as Hs;
      rewrite app_nil_r in Hs; exact Hs
  end.

Lemma for_keywords_asks keywords loc s s' r :
  for_keywords w cfg keywords loc s = (s', r) ->
  match keywords with
  | [] => s' = s /\ r = inr loc
  | kw :: rest => asks cfg rest (asked cfg kw s) s' r
  end.
Proof.
  revert loc s. induction keywords as [|kw rest IH]; intros loc s H; simpl in H.
  - inversion H; subst. auto.
  - assert (Hrec : forall loc1 s1,
              for_keywords w cfg rest loc1 s1 = (s', r) ->
              asks cfg rest s1 s' r).
    { intros loc1 s1 H1. apply IH in H1. destruct rest as [|kw' rest'].
      - destruct H1 as [-> ->]. exists [], O. rewrite app_nil_r, Nat.add_0_r.
        repeat split; auto.
      - by apply asks_cons. }
    clear IH.
    assert (Hstop : forall e evs,
              requests_of evs = [] ->
              asks cfg rest (asked cfg kw s)
                (State (clock_reads s) (draws s) (S (requests s))
                   (trace (asked cfg kw s) ++ evs))
                (@inl exn locals e)).
    { intros e evs Hn. by apply (asks_stop _ _ _ _ evs). }
    unfold bind at 1, print, emit in H.
    apply bind_inv in H as [(s1 & resp & Hget & H)|(e & Hget & ->)];
      unfold http_get in Hget; destruct (requests_get w _ _);
      inversion Hget; subst; clear Hget.
    2:{ stop_with Hstop. }
    fold (asked cfg kw s) in H.
    destruct (negb (status_code resp =? 200)).
    { unfold bind at 1, print, emit in H. apply Hrec in H.
      by apply (asks_skip rest (asked cfg kw s)
                  (record (Print (MsgFetchFailed (text resp))) (asked cfg kw s))
                  s' r [Print (MsgFetchFailed (text resp))]). }
    apply bind_inv in H as [(s2 & body & Hj & H)|(e & Hj & ->)];
      unfold response_json in Hj; destruct (json_body resp);
      inversion Hj; subst; clear Hj;
      try stop_with Hstop.
    apply bind_inv in H as [(s2 & articles & Hj & H)|(e & Hj & ->)];
      unfold py_get in Hj; destruct body;
      inversion Hj; subst; clear Hj;
      try stop_with Hstop.
    apply bind_inv in H as [(s2 & n & Hj & H)|(e & Hj & ->)];
      unfold py_len in Hj; destruct (default _ _);
      inversion Hj; subst; clear Hj;
      try stop_with Hstop.
    all: unfold bind at 1, print, emit in H.
    all: match type of H with
         | _ (record (Print ?m) ?s0) = _ =>
             apply (asks_skip rest (asked cfg kw s) (record (Print m) s0)
                      s' r [Print m]);
             [reflexivity | reflexivity | reflexivity |]
         end.
    all: apply bind_inv in H as [(s2 & its & Hj & H)|(e & Hj & ->)];
      inversion Hj; subst; clear Hj.
    all: apply bind_inv in H as [(s2 & loc1 & Hj & H)|(e & Hj & ->)];
      apply for_articles_spec in Hj
        as (vs & loc_end & Ht & Hd & Hr & Hc & Hv & Hres).
    all: try (apply (asks_stop _ _ _ _ (visit_event <$> vs));
              auto using requests_of_visit_events; discriminate).
    all: apply Hrec in H;
      apply (asks_skip _ _ s2 _ _ (visit_event <$> vs));
      auto using requests_of_visit_events.
Qed.

End Requests.

(** X8.  The loop over the keywords makes one GET per keyword, in keyword
    order, to the search URL of that keyword, and never a second request
    for a keyword whatever the answer; it asks for every keyword when it
    returns, and stops asking at the keyword whose handling raised. *)
Theorem one_request_per_keyword (w : World) (cfg : config)
    (keywords : list string) (loc : locals) (s s' : state)
    (r : exn + locals) :
  for_keywords w cfg keywords loc s = (s', r) ->
  exists j,
    requests_of (events_since s s') = get_for cfg <$> take j keywords
    /\ requests s' = (requests s + j)%nat
    /\ (j <= length keywords)%nat
    /\ (keywords <> [] -> (1 <= j)%nat)
    /\ (forall loc', r = inr loc' -> j = length keywords).
Proof.
  intros H. apply for_keywords_asks in H.
  destruct keywords as [|kw rest].
  - destruct H as [-> ->]. exists O. unfold events_since.
    rewrite drop_all. repeat split; auto. congruence.
  - destruct H as (evs & j & Ht & Hr & Hj & Hreq & Hok).
    exists (S j).
    assert (Ht' : trace s'
                  = trace s ++ [Print (MsgFetching kw); get_for cfg kw] ++ evs).
    { rewrite Ht. simpl. by rewrite <- !app_assoc. }
    rewrite (events_since_app _ _ _ Ht'), requests_of_app, Hreq.
    simpl in *. repeat split; auto; try lia.
    intros a E. by rewrite (Hok a E).
Qed.

Lemma one_request_per_keyword_witness :
  exists j,
    requests_of
      (events_since initial
         (for_keywords (Scenario.world_of 203 Scenario.fresh) Scenario.cfg
            ["sewing thread"; "embroidery"] (Locals ∅ []) initial).1)
    = get_for Scenario.cfg <$> take j ["sewing thread"; "embroidery"]
    /\ j = 2%nat.
Proof.
  set (w := Scenario.world_of 203 Scenario.fresh).
  set (run := for_keywords w Scenario.cfg ["sewing thread"; "embroidery"]
                (Locals ∅ []) initial).
  destruct (one_request_per_keyword w Scenario.cfg
              ["sewing thread"; "embroidery"] (Locals ∅ []) initial
              run.1 run.2 (surjective_pairing _))
    as (j & Hreq & _ & _ & _ & Hall).
  exists j. split; [exact Hreq |].
  apply (Hall (Locals ∅ [])). vm_compute. reflexivity.
Defined.

(** ** Exceptions of an iteration *)

(** X9.  The iteration on an article raises in three cases only: the
    element is not a JSON object ([AttributeError], before anything is
    read); it got to line 76 with a truthy url that is a list or an
    object ([TypeError] at the membership test); or its url is new and
    its [source] is present but not an object, null included
    ([AttributeError] at line 82).  Missing or unparsable timestamps never
    raise. *)
Theorem article_step_raises (w : World) (a : json) (loc : locals)
    (s s' : state) (e : exn) :
  article_step w a loc s = (s', inl e) <->
  (is_object a = false /\ e = AttributeError /\ s' = s)
  \/ (reaches_url w a (utcnow w (clock_reads s))
      /\ truthy (article_url a) = true
      /\ s' = tick s
      /\ ((article_key a = None /\ e = TypeError)
          \/ (exists k, article_key a = Some k
                        /\ (k ∉ seen_links loc)
                        /\ is_object (field a "source" (JObj [])) = false
                        /\ e = AttributeError))).
Proof.
  unfold article_step, reaches_url, article_key, article_url, field.
  destruct a as [| | | |?|members];
    try (split;
         [ intros H; inversion H; subst; left; auto
         | intros [(_ & -> & ->)|((Hf & _) & _)]; [reflexivity | discriminate] ]).
  cbv [bind ret raise py_get py_hash read_utcnow]. simpl is_object.
  destruct (truthy (default JNull (dict_get "publishedAt" members))) eqn:Epa;
    simpl;
    [| split; [discriminate | intros [(? & _)|((? & _) & _)]; discriminate]].
  destruct (parse_published w _) as [t|] eqn:Eparse;
    [| split; [discriminate
              | intros [(? & _)|((_ & t & ? & _) & _)]; discriminate]].
  destruct (t <? _) eqn:Eold.
  { apply Z.ltb_lt in Eold.
    split; [discriminate |].
    intros [(? & _)|((_ & t' & Et & Hle) & _)]; [discriminate |].
    inversion Et; subst. lia. }
  apply Z.ltb_ge in Eold.
  assert (Hreach : true = true
                   /\ exists t0, Some t = Some t0
                        /\ utcnow w (clock_reads s) - timedelta DAYS_FILTER <= t0)
    by (split; [reflexivity | by exists t]).
  destruct (truthy (default JNull (dict_get "url" members))) eqn:Eurl; simpl;
    [| split; [discriminate | intros [(? & _)|(_ & ? & _)]; discriminate]].
  destruct (hash_key (default JNull (dict_get "url" members))) as [k|] eqn:Ekey.
  2:{ split.
      - intros H; inversion H; subst. right.
        split; [exact Hreach | split; [reflexivity | split; [reflexivity |]]].
        left; auto.
      - intros [(? & _)|(_ & _ & -> & [(_ & ->)|(k & ? & _)])];
          [discriminate | reflexivity | discriminate]. }
  destruct (bool_decide (k ∈ seen_links loc)) eqn:Eseen.
  { apply bool_decide_eq_true in Eseen.
    split; [discriminate |].
    intros [(? & _)|(_ & _ & _ & [(? & _)|(k' & Ek & Hk & _)])];
      try discriminate.
    inversion Ek; subst. by destruct Hk. }
  apply bool_decide_eq_false in Eseen.
  destruct (default (JObj []) (dict_get "source" members))
    as [| | | |?|src] eqn:Esrc.
  1-5: split;
    [ intros H; inversion H; subst; right;
      (split; [exact Hreach | split; [reflexivity | split; [reflexivity |]]]);
      right; exists k; auto
    | intros [(? & _)|(_ & _ & -> & [(? & _)|(k' & _ & _ & _ & ->)])];
      [discriminate | discriminate | reflexivity] ].
  split.
  - intros H. exfalso. revert H.
    destruct (Str.contains _ _); discriminate.
  - intros [(? & _)|(_ & _ & _ & [(? & _)|(k' & _ & _ & ? & _)])];
      discriminate.
Qed.

(** ** Pushing *)

Lemma sign_url_reads_clock_only w cfg s :
  exists target, forall s0,
    clock_reads s0 = clock_reads s ->
    sign_url w cfg s0 = (tick s0, inr target).
Proof.
  eexists. intros s0 H. unfold sign_url, bind, read_time_ms, ret.
  rewrite H. reflexivity.
Qed.

Lemma send_to_dingtalk_run w cfg news s s' r :
  news <> [] ->
  send_to_dingtalk w cfg news s = (s', r) ->
  exists target evs,
    sign_url w cfg s = (tick s, inr target)
    /\ trace s' = trace s ++ evs
    /\ requests_of evs = [HttpPost target json_headers (push_body w news)]
    /\ clock_reads s' = S (clock_reads s)
    /\ draws s' = draws s
    /\ requests s' = S (requests s)
    /\ match requests_post w (requests s) target json_headers (push_body w news)
       with
       | Some resp =>
           r = inr tt
           /\ last (trace s')
              = Some (Print (MsgPushStatus (status_code resp) (text resp)))
       | None => r = inl RequestException
       end.
Proof.
  intros Hne H. destruct news as [|n news]; [congruence |].
  destruct (sign_url_reads_clock_only w cfg s) as (target & Hs).
  exists target.
  unfold send_to_dingtalk in H. unfold bind at 1, print, emit in H.
  unfold bind at 1 in H. rewrite Hs in H by reflexivity.
  unfold bind at 1, http_post in H.
  fold json_headers in H. fold (push_body w (n :: news)) in H.
  change (requests (tick (record (Print (MsgNewsDump (n :: news))) s)))
    with (requests s) in H.
  destruct (requests_post w (requests s) target json_headers
              (push_body w (n :: news))) as [resp|];
    inversion H; subst; clear H;
    eexists; (split; [by apply Hs |]);
    (split; [simpl; rewrite <- ?app_assoc; reflexivity |]);
    repeat split; auto.
  simpl. apply last_snoc.
Qed.

(** X10.  With a non-empty list [send_to_dingtalk] reads the clock once,
    signs the webhook URL with that reading and makes exactly one POST of
    the markdown body to it.  The status of the answer is not examined:
    whenever the POST returns a response the function returns normally,
    and it raises only when the POST itself raises. *)
Theorem nonempty_selection_is_posted_once (w : World) (cfg : config)
    (news : list news_item) (s s' : state) (r : exn + unit) :
  news <> [] ->
  send_to_dingtalk w cfg news s = (s', r) ->
  exists target,
    sign_url w cfg s = (tick s, inr target)
    /\ requests_of (events_since s s')
       = [HttpPost target json_headers (push_body w news)]
    /\ clock_reads s' = S (clock_reads s)
    /\ draws s' = draws s
    /\ requests s' = S (requests s)
    /\ match requests_post w (requests s) target json_headers (push_body w news)
       with
       | Some resp =>
           r = inr tt
           /\ last (trace s')
              = Some (Print (MsgPushStatus (status_code resp) (text resp)))
       | None => r = inl RequestException
       end.
Proof.
  intros Hne H.
  destruct (send_to_dingtalk_run _ _ _ _ _ _ Hne H)
    as (target & evs & Hs & Ht & Hreq & Hrest).
  exists target. rewrite (events_since_app _ _ _ Ht). auto.
Qed.

Lemma nonempty_selection_is_posted_once_witness :
  exists target,
    requests_of
      (events_since initial
         (send_to_dingtalk (Scenario.world_of 200 Scenario.fresh) Scenario.cfg
            [NewsItem (JStr "t") (JStr "") (JStr "https://example.com/n/1") ""
               "2024-01-01 12:00" 0 (JStr "s") ""] initial).1)
    = [HttpPost target json_headers
         (push_body (Scenario.world_of 200 Scenario.fresh)
            [NewsItem (JStr "t") (JStr "") (JStr "https://example.com/n/1") ""
               "2024-01-01 12:00" 0 (JStr "s") ""])].
Proof.
  set (w := Scenario.world_of 200 Scenario.fresh).
  set (news := [NewsItem (JStr "t") (JStr "") (JStr "https://example.com/n/1")
                  "" "2024-01-01 12:00" 0 (JStr "s") ""]).
  destruct (nonempty_selection_is_posted_once w Scenario.cfg news initial
              (send_to_dingtalk w Scenario.cfg news initial).1
              (send_to_dingtalk w Scenario.cfg news initial).2)
    as (target & _ & Hreq & _).
  - discriminate.
  - apply surjective_pairing.
  - by exists target.
Defined.

(** ** The run as a whole *)

Lemma print_items_spec i news s :
  exists evs,
    print_items i news s =
      (State (clock_reads s) (draws s) (requests s) (trace s ++ evs), inr tt)
    /\ requests_of evs = [].
Proof.
  revert i s. induction news as [|n news IH]; intros i s; simpl.
  - exists []. rewrite app_nil_r. by destruct s.
  - unfold bind at 1, print, emit.
    destruct (IH (S i) (record (Print (MsgItem i n)) s)) as (evs & -> & Hn).
    exists (Print (MsgItem i n) :: evs). simpl. rewrite <- app_assoc.
    split; [reflexivity | exact Hn].
Qed.

Lemma fetch_news_requests w cfg s s' r :
  fetch_news w cfg s = (s', r) ->
  exists evs,
    trace s' = trace s ++ evs
    /\ requests_of evs = get_for cfg <$> KEYWORDS.
Proof.
  intros H. apply fetch_news_inv in H as (s1 & r1 & Hk & H).
  apply for_keywords_asks in Hk. simpl in Hk.
  destruct Hk as (evs & j & Ht & _ & Hj & Hreq & _).
  assert (j = O) by (simpl in Hj; lia). subst j. simpl in Hreq, Ht.
  destruct r1 as [e|loc].
  - destruct H as [-> _]. eexists. rewrite Ht, <- !app_assoc.
    split; [reflexivity |]. simpl. by rewrite Hreq.
  - destruct H as (recent & shuffled & _ & _ & _ & Ht' & _).
    eexists. rewrite Ht', Ht, <- !app_assoc.
    split; [reflexivity |]. simpl. rewrite requests_of_app, Hreq. reflexivity.
Qed.

Lemma main_stages w cfg s s' r :
  main w cfg s = (s', r) ->
  exists s1 r1,
    fetch_news w cfg s = (s1, r1)
    /\ match r1 with
       | inl e => s' = s1 /\ r = inl e
       | inr sel =>
           exists evs,
             trace s' = trace s1 ++ evs
             /\ match sel with
                | [] => requests_of evs = [] /\ r = inr tt
                | n :: l =>
                    exists target,
                      sign_url w cfg s1 = (tick s1, inr target)
                      /\ requests_of evs
                         = [HttpPost target json_headers (push_body w (n :: l))]
                end
       end.
Proof.
  unfold main. intros H.
  apply bind_inv in H as [(s1 & sel & Hf & H)|(e & Hf & ->)].
  2:{ exists s', (inl e). auto. }
  exists s1, (inr sel). split; [exact Hf |].
  unfold bind at 1, print, emit in H. unfold bind at 1 in H.
  destruct (print_items_spec 1 sel (record (Print (MsgTotal (length sel))) s1))
    as (evs & Hp & Hn).
  rewrite Hp in H. clear Hp.
  destruct sel as [|n l].
  - inversion H; subst; clear H. eexists. simpl. rewrite <- !app_assoc.
    split; [reflexivity |]. split; [| reflexivity].
    simpl. rewrite requests_of_app, Hn. reflexivity.
  - apply send_to_dingtalk_run in H
      as (target & evs' & Hs & Ht & Hreq & _); [| discriminate].
    destruct (sign_url_reads_clock_only w cfg s1) as (target' & Hs').
    rewrite Hs' in Hs by reflexivity. inversion Hs; subst target'.
    simpl in Ht. rewrite <- !app_assoc in Ht.
    eexists. split; [exact Ht |].
    exists target. split; [by apply Hs' |].
    simpl. rewrite requests_of_app, Hn, Hreq. reflexivity.
Qed.

(** X11.  The requests of a whole run.  With a secret missing the script
    raises before anything else happens.  Otherwise it makes the GET of
    its one keyword and then, only when [fetch_news] returned a non-empty
    selection, one POST of that selection to the signed webhook URL; when
    [fetch_news] raises or selects nothing, the GET is the only request. *)
Theorem script_requests (w : World) (s s' : state) (r : exn + unit) :
  script w s = (s', r) ->
  (load_config w s = (s, inl ValueError)
   /\ s' = s /\ r = inl ValueError)
  \/ exists cfg s1 r1,
       load_config w s = (s, inr cfg)
       /\ fetch_news w cfg s = (s1, r1)
       /\ match r1 with
          | inl e =>
              requests_of (events_since s s') = [get_for cfg "sewing thread"]
              /\ r = inl e
          | inr [] =>
              requests_of (events_since s s') = [get_for cfg "sewing thread"]
              /\ r = inr tt
          | inr (n :: l) =>
              exists target,
                sign_url w cfg s1 = (tick s1, inr target)
                /\ requests_of (events_since s s')
                   = [get_for cfg "sewing thread";
                      HttpPost target json_headers (push_body w (n :: l))]
          end.
Proof.
  unfold script. intros H.
  assert (Hc : load_config w s = (s, inl ValueError)
               \/ exists cfg, load_config w s = (s, inr cfg)).
  { unfold load_config, raise, ret. destruct (negb _); eauto. }
  destruct Hc as [Hc|(cfg & Hc)]; unfold bind in H; rewrite Hc in H.
  { inversion H; subst. left. auto. }
  right. apply main_stages in H as (s1 & r1 & Hf & H).
  exists cfg, s1, r1. split; [exact Hc |]. split; [exact Hf |].
  destruct (fetch_news_requests _ _ _ _ _ Hf) as (evs & Ht & Hreq).
  destruct r1 as [e|sel].
  - destruct H as [-> ->]. split; [| reflexivity].
    rewrite (events_since_app _ _ _ Ht). exact Hreq.
  - destruct H as (evs' & Ht' & H).
    rewrite Ht, <- app_assoc in Ht'.
    rewrite (events_since_app _ _ _ Ht'), requests_of_app, Hreq.
    destruct sel as [|n l].
    + destruct H as [-> ->]. auto.
    + destruct H as (target & Hs & ->). exists target. auto.
Qed.

Lemma script_requests_witness :
  exists target body,
    requests_of
      (events_since initial
         (script (Scenario.world_of 200 Scenario.fresh) initial).1)
    = [get_for (Config "x" "x" "x") "sewing thread";
       HttpPost target json_headers body].
Proof.
  set (w := Scenario.world_of 200 Scenario.fresh).
  set (run := script w initial).
  destruct (script_requests w initial run.1 run.2 (surjective_pairing _))
    as [(Hc & _)|(cfg & s1 & r1 & Hc & Hf & Hm)].
  - exfalso. vm_compute in Hc. discriminate.
  - assert (cfg = Config "x" "x" "x") by (vm_compute in Hc; congruence).
    subst cfg.
    assert (E : exists n l,
              (fetch_news w (Config "x" "x" "x") initial).2 = inr (n :: l)).
    { vm_compute. eexists _, _. reflexivity. }
    destruct E as (n & l & E). rewrite Hf in E. simpl in E. subst r1.
    destruct Hm as (target & _ & Hq).
    exists target, (push_body w (n :: l)). exact Hq.
Defined.

(** ** Stripped text *)

Module TextFacts.

Import Str.

#[local] Arguments String.append !_ _ / : simpl nomatch.

Lemma append_assoc a b c : (a +:+ b) +:+ c = a +:+ b +:+ c.
Proof. induction a as [|x a IH]; simpl; [reflexivity | by rewrite IH]. Qed.

Lemma append_nil_r a : a +:+ "" = a.
Proof. induction a as [|x a IH]; simpl; [reflexivity | by rewrite IH]. Qed.

(** *** The start of a stripped text *)

Lemma lstrip_head mid post :
  hard mid = true -> mid <> "" -> lstrip (mid +:+ post) = mid +:+ post.
Proof.
  destruct mid as [|c mid]; [congruence |]. simpl. intros H _.
  apply andb_true_iff in H as [Hc _].
  change (String c (mid +:+ post)) with (String c mid +:+ post).
  apply (StrFacts.lstrip_hard_head c (mid +:+ post) Hc).
Qed.

Lemma lstrip_not_led s : space_led (lstrip s) = false.
Proof.
  remember (String.length s) as n eqn:Hn.
  assert (Hle : (String.length s <= n)%nat) by lia. clear Hn.
  revert s Hle. induction n as [|n IH]; intros s Hle.
  { destruct s; [reflexivity | simpl in Hle; lia]. }
  destruct s as [|c r]; [reflexivity |]. simpl in Hle. cbn [lstrip].
  destruct (is_space c) eqn:E1; [apply IH; lia |].
  destruct r as [|d r]; [simpl; by rewrite E1 |]. simpl in Hle.
  destruct (is_space2 c d) eqn:E2; [apply IH; lia |].
  destruct r as [|e r]; [simpl; by rewrite E1, E2 |]. simpl in Hle.
  destruct (is_space3 c d e) eqn:E3; [apply IH; lia |].
  simpl. by rewrite E1, E2, E3.
Qed.

Lemma space_led_app a q : space_led a = true -> space_led (a +:+ q) = true.
Proof.
  destruct a as [|c [|d [|e a]]]; simpl; try discriminate.
  - rewrite orb_false_r. by intros ->.
  - rewrite !orb_false_r. intros H.
    apply orb_true_iff in H as [-> | ->]; [reflexivity |].
    by rewrite orb_true_r.
  - auto.
Qed.

Lemma rstrip_prefix s : exists q, s = rstrip s +:+ q.
Proof.
  induction s as [|c s [q IH]]; [by exists "" |].
  rewrite StrFacts.rstrip_cons.
  destruct (is_space_char _); [by exists (String c s) |].
  exists q. simpl. by rewrite <- IH.
Qed.

Lemma rstrip_not_led s : space_led s = false -> space_led (rstrip s) = false.
Proof.
  intros H. destruct (rstrip_prefix s) as [q Hq].
  destruct (space_led (rstrip s)) eqn:E; [| reflexivity].
  apply (space_led_app _ q) in E. rewrite <- Hq in E. congruence.
Qed.

(** *** The end of a stripped text *)

Lemma rstrip_tail s p q : rstrip s = p +:+ q -> is_space_char q = false.
Proof.
  revert p. induction s as [|c s IH]; intros p H.
  - destruct p; simpl in H; [by subst | discriminate].
  - rewrite StrFacts.rstrip_cons in H.
    destruct (is_space_char (String c (rstrip s))) eqn:E.
    + destruct p; simpl in H; [by subst | discriminate].
    + destruct p as [|c' p]; simpl in H; [by subst |].
      injection H as _ H. by apply (IH p).
Qed.

Lemma rstrip_not_ended s : ~ space_ended (rstrip s).
Proof.
  intros (p & q & Heq & Hq). by rewrite (rstrip_tail s p q Heq) in Hq.
Qed.

Lemma rstrip_blank post : all_chars is_space post = true -> rstrip post = "".
Proof.
  induction post as [|c post IH]; [reflexivity |]. simpl all_chars. intros H.
  apply andb_true_iff in H as [Hc H].
  rewrite StrFacts.rstrip_cons, (IH H). simpl. by rewrite Hc.
Qed.

Lemma rstrip_app_blank p post :
  all_chars is_space post = true -> rstrip (p +:+ post) = rstrip p.
Proof.
  intros H. induction p as [|c p IH]; [by apply rstrip_blank |].
  change (String c p +:+ post) with (String c (p +:+ post)).
  by rewrite !StrFacts.rstrip_cons, IH.
Qed.

Lemma shut_not_opening c r :
  shut_char c = true -> is_space_char (String c r) = false.
Proof.
  unfold shut_char. intros H.
  destruct r as [|d [|e [|? ?]]]; simpl; [| | | reflexivity].
  - apply andb_true_iff in H as [H _]. by apply negb_true_iff in H.
  - unfold is_space2. revert H.
    generalize (Bytes.byte_of_ascii c) (Bytes.byte_of_ascii d) (is_space c).
    intros x y b H. destruct (_ && _) eqn:E in |- *; [| reflexivity].
    destruct b; simpl in H; [discriminate | lia].
  - unfold is_space3. revert H.
    generalize (Bytes.byte_of_ascii c) (Bytes.byte_of_ascii d)
      (Bytes.byte_of_ascii e) (is_space c).
    intros x y z b H. destruct (_ || _) eqn:E in |- *; [| reflexivity].
    destruct b; simpl in H; [discriminate | lia].
Qed.

Lemma rstrip_shut mid post :
  all_chars shut_char mid = true -> rstrip (mid +:+ post) = mid +:+ rstrip post.
Proof.
  induction mid as [|c mid IH]; intros Hs; [reflexivity |].
  simpl in Hs. apply andb_true_iff in Hs as [Hc Hs].
  change (String c mid +:+ post) with (String c (mid +:+ post)).
  by rewrite StrFacts.rstrip_cons, (IH Hs), shut_not_opening.
Qed.

(** *** Decimal numbers *)

Lemma pretty_N_char_plain x : hard_char (pretty_N_char x) = true.
Proof. unfold pretty_N_char. by repeat case_match. Qed.

Lemma pretty_N_go_plain x s :
  hard s = true -> s <> "" ->
  hard (pretty_N_go x s) = true /\ pretty_N_go x s <> "".
Proof.
  revert s. induction (N.lt_wf_0 x) as [x _ IH]; intros s Hs Hne.
  assert (x = 0 \/ 0 < x)%N as [->|Hx] by lia.
  - by rewrite pretty_N_go_0.
  - rewrite pretty_N_go_step by done. apply IH.
    + by apply N.div_lt.
    + simpl. by rewrite pretty_N_char_plain, Hs.
    + discriminate.
Qed.

Lemma pretty_nat_plain (n : nat) :
  hard (pretty n) = true /\ pretty n <> "".
Proof.
  unfold pretty, pretty_nat, pretty, pretty_N.
  destruct (decide (N.of_nat n = 0%N)) as [|Hn]; [by split |].
  rewrite pretty_N_go_step by lia.
  apply pretty_N_go_plain; [| discriminate].
  simpl. by rewrite pretty_N_char_plain.
Qed.

End TextFacts.

(** ** Where the selected items come from *)

Lemma article_image_trimmed a :
  space_led (article_image a) = false /\ ~ space_ended (article_image a).
Proof.
  unfold article_image.
  destruct (field a "urlToImage" JNull);
    try (split; [reflexivity | intros (p & q & Heq & Hq);
                 destruct p; destruct q; discriminate]).
  unfold Str.strip. split.
  - apply TextFacts.rstrip_not_led, TextFacts.lstrip_not_led.
  - apply TextFacts.rstrip_not_ended.
Qed.

Lemma visits_provenance w loc vs loc' :
  visits w loc vs loc' ->
  forall n, n ∈ all_news loc' ->
    n ∈ all_news loc \/ exists a, (a, Kept) ∈ vs /\ kept_item w a n.
Proof.
  induction 1 as [|loc a v loc1 vs loc2 Hs _ IH]; [auto |].
  intros n Hn. destruct (IH n Hn) as [Hin|(b & Hb & Hitem)].
  2:{ right. exists b. split; [by apply list_elem_of_further | exact Hitem]. }
  clear IH Hn.
  destruct Hs as [v He| |k|k|k item _ _ _ _ Hitem]; simpl in Hin; auto.
  apply elem_of_app in Hin as [Hin|Hin]; [auto |].
  apply list_elem_of_singleton in Hin. subst n.
  right. exists a. split; [apply list_elem_of_here | exact Hitem].
Qed.

(** X12.  Every item [fetch_news] returns was built, at lines 91-100, from
    an article of a response that this call visited and kept: its fields
    are that article's, its image neither begins nor ends with a white
    space character (of the ASCII range or above it), and its region is
    empty, so that no region is ever shown. *)
Theorem selected_items_come_from_articles (w : World) (cfg : config)
    (s s' : state) (sel : list news_item) :
  fetch_news w cfg s = (s', inr sel) ->
  forall n, n ∈ sel ->
    exists a,
      (a, Kept) ∈ visits_of (events_since s s')
      /\ kept_item w a n
      /\ space_led (image n) = false
      /\ ~ space_ended (image n)
      /\ Str.nonempty (region n) = false.
Proof.
  intros H n Hn.
  destruct (fetch_news_run _ _ _ _ _ H) as (loc & Hv & Hsel).
  destruct (Hsel sel eq_refl)
    as (s1 & recent & shuffled & _ & Hsub & Hperm & -> & _).
  assert (Hall : n ∈ all_news loc).
  { apply (sublist_subseteq _ _ Hsub). rewrite <- Hperm.
    by apply (subseteq_take NEWS_LIMIT). }
  destruct (visits_provenance _ _ _ _ Hv n Hall) as [Hin|(a & Ha & Hitem)];
    [inversion Hin |].
  exists a. split; [exact Ha |]. split; [exact Hitem |].
  destruct Hitem as (_ & Himg & _ & _ & _ & _ & Hreg).
  rewrite Himg, Hreg. destruct (article_image_trimmed a). auto.
Qed.

Lemma selected_items_come_from_articles_witness :
  exists sel,
    (fetch_news (Scenario.world_of 200 padded_images) Scenario.cfg initial).2
    = inr sel
    /\ image <$> sel = ["https://img/a.png"; ""]
    /\ forall n, n ∈ sel ->
         space_led (image n) = false /\ ~ space_ended (image n).
Proof.
  set (w := Scenario.world_of 200 padded_images).
  set (run := fetch_news w Scenario.cfg initial).
  set (sel := match run.2 with inr l => l | inl _ => [] end).
  assert (Hrun : run = (run.1, inr sel)) by (vm_compute; reflexivity).
  exists sel. split; [by rewrite Hrun |]. split; [vm_compute; reflexivity |].
  intros n Hn.
  destruct (selected_items_come_from_articles w Scenario.cfg initial run.1 sel
              Hrun n Hn) as (a & _ & _ & Hled & Hend & _).
  split; [exact Hled | exact Hend].
Defined.

(** ** Exceptions of the loop over articles *)

Lemma for_articles_app w pre rest loc s :
  for_articles w (pre ++ rest) loc s
  = bind (for_articles w pre loc) (for_articles w rest) s.
Proof.
  revert loc s. induction pre as [|a pre IH]; intros loc s; [reflexivity |].
  simpl. unfold bind.
  destruct (article_step w a loc s) as [s1 [e|[loc1 v]]]; [reflexivity |].
  unfold emit. simpl. rewrite IH. reflexivity.
Qed.

(** X13.  No exception is caught in the loop over articles: it raises
    exactly when the iteration on some element raises after the elements
    before it were run through, with that exception, and the elements
    after it are not visited. *)
Theorem first_failing_article_aborts (w : World) (items : list json)
    (loc : locals) (s s' : state) (e : exn) :
  for_articles w items loc s = (s', inl e) <->
  exists pre a post loc1 s1,
    items = pre ++ a :: post
    /\ for_articles w pre loc s = (s1, inr loc1)
    /\ article_step w a loc1 s1 = (s', inl e)
    /\ (visits_of (events_since s s')).*1 = pre.
Proof.
  split.
  - revert loc s. induction items as [|a rest IH]; intros loc s H; simpl in H;
      [discriminate |].
    apply bind_inv in H as [(s1 & [loc1 v] & Hstep & H)|(e' & Hstep & Heq)].
    + simpl in H. unfold bind at 1, emit in H.
      destruct (IH _ _ H) as (pre & b & post & loc2 & s2 & -> & Hpre & Hb & Hv).
      exists (a :: pre), b, post, loc2, s2. split; [reflexivity |].
      split; [simpl; unfold bind at 1; rewrite Hstep; simpl;
              unfold bind at 1, emit; exact Hpre |].
      split; [exact Hb |].
      apply article_step_outcome in Hstep as (Ht & _).
      apply for_articles_spec in H as (vs & ? & Ht' & _).
      rewrite (events_since_app _ _ _ Ht') in Hv.
      simpl in Ht'. rewrite Ht, <- app_assoc in Ht'.
      rewrite (events_since_app _ _ _ Ht').
      rewrite visits_of_app, fmap_app, Hv. reflexivity.
    + inversion Heq; subst e'. exists [], a, rest, loc, s.
      repeat split; auto.
      apply article_step_outcome in Hstep as (Ht & _).
      unfold events_since. rewrite Ht, drop_all. reflexivity.
  - intros (pre & a & post & loc1 & s1 & -> & Hpre & Ha & _).
    rewrite for_articles_app. unfold bind at 1. rewrite Hpre. simpl.
    unfold bind at 1. rewrite Ha. reflexivity.
Qed.

(** ** Layout of a block *)

(** X14.  What [strip] leaves of a block: the leading space goes, the
    rank comes first, and the text ends with the closing parenthesis of
    the image when there is an image, and otherwise with the time, the
    two line ends after it and any white space at its end removed.  Title,
    url, source and time are always there. *)
Theorem block_layout (w : World) (i : nat) (item : news_item) :
  block w i item =
    pretty i +:+ ". [" +:+ py_str w (title item) +:+ "](" +:+
    py_str w (url item) +:+ ")" +:+ Str.newline +:+ Str.newline +:+
    "🌐 来源：" +:+ py_str w (source item) +:+
    (if Str.nonempty (region item) then " | 地区：" +:+ region item else "") +:+
    Str.newline +:+ "🕘 时间：" +:+
    (if Str.nonempty (image item)
     then published item +:+ Str.newline +:+ "![图片](" +:+ image item +:+ ")"
     else Str.rstrip (published item)).
Proof.
  unfold block, Str.strip.
  destruct (TextFacts.pretty_nat_plain i) as [Hs Hne].
  match goal with
  | |- Str.rstrip (Str.lstrip (" " +:+ pretty i +:+ ?x)) = _ =>
      change (Str.lstrip (" " +:+ pretty i +:+ x))
        with (Str.lstrip (pretty i +:+ x));
      rewrite (TextFacts.lstrip_head (pretty i) x Hs Hne)
  end.
  set (R := if Str.nonempty (region item) then _ else _).
  set (pre := pretty i +:+ ". [" +:+ py_str w (title item) +:+ "](" +:+
              py_str w (url item) +:+ ")" +:+ Str.newline +:+ Str.newline +:+
              "🌐 来源：" +:+ py_str w (source item) +:+ R +:+ Str.newline).
  assert (Htail :
    Str.rstrip (published item +:+ Str.newline +:+
                (if Str.nonempty (image item)
                 then "![图片](" +:+ image item +:+ ")" else "") +:+
                Str.newline)
    = if Str.nonempty (image item)
      then published item +:+ Str.newline +:+ "![图片](" +:+ image item +:+ ")"
      else Str.rstrip (published item)).
  { destruct (image item) as [|c img]; cbn [Str.nonempty].
    - apply TextFacts.rstrip_app_blank. reflexivity.
    - set (img' := String c img).
      transitivity
        (Str.rstrip ((published item +:+ Str.newline +:+ "![图片](" +:+ img')
                     +:+ ")" +:+ Str.newline)).
      { by rewrite !TextFacts.append_assoc. }
      rewrite StrFacts.rstrip_keeps; [| reflexivity | discriminate].
      rewrite !TextFacts.append_assoc. reflexivity. }
  transitivity
    (Str.rstrip ((pre +:+ "🕘 ") +:+ "时间" +:+ "：" +:+
                 (published item +:+ Str.newline +:+
                  (if Str.nonempty (image item)
                   then "![图片](" +:+ image item +:+ ")" else "") +:+
                  Str.newline))).
  { unfold pre. by rewrite !TextFacts.append_assoc. }
  rewrite StrFacts.rstrip_keeps; [| reflexivity | discriminate].
  rewrite TextFacts.rstrip_shut by reflexivity.
  rewrite Htail. unfold pre. by rewrite !TextFacts.append_assoc.
Qed.

(** ** An [articles] field that is not a list *)

Lemma chars_cons c r : exists h t, Str.chars (String c r) = h :: t.
Proof.
  simpl. destruct (Str.chars r) as [|[|d h] t]; eauto.
  destruct (Str.is_continuation d); eauto.
Qed.

(** X15.  When the [articles] member of a 200 response is not a list:
    a null, a boolean or a number raises [TypeError] at [len], before the
    count is printed; a non-empty string or object raises
    [AttributeError] at the first element, after the count was printed;
    an empty string or object counts as no articles and the loop goes on
    to the next keyword. *)
Theorem articles_not_a_list (w : World) (cfg : config) (kw : string)
    (rest : list string) (loc : locals) (s : state) (resp : response)
    (members : list (string * json)) (v : json) :
  requests_get w (requests s) (news_url cfg kw) = Some resp ->
  status_code resp = 200 ->
  json_body resp = Some (JObj members) ->
  dict_get "articles" members = Some v ->
  (forall items, v <> JArr items) ->
  if is_scalar v
  then for_keywords w cfg (kw :: rest) loc s = (asked cfg kw s, inl TypeError)
  else if truthy v
  then exists n,
         (0 < n)%nat
         /\ for_keywords w cfg (kw :: rest) loc s =
            (record (Print (MsgFetched n DAYS_FILTER)) (asked cfg kw s),
             inl AttributeError)
  else for_keywords w cfg (kw :: rest) loc s =
         for_keywords w cfg rest loc
           (record (Print (MsgFetched 0 DAYS_FILTER)) (asked cfg kw s)).
Proof.
  intros Hget Hst Hbody Hart Hna.
  assert (Hrun : for_keywords w cfg (kw :: rest) loc s =
            bind (py_len v)
              (fun n =>
                 bind (print (MsgFetched n DAYS_FILTER))
                   (fun _ =>
                      bind (py_iter v)
                        (fun items =>
                           bind (for_articles w items loc)
                             (for_keywords w cfg rest))))
              (asked cfg kw s)).
  { simpl. unfold bind at 1, print, emit.
    unfold bind at 1, http_get. simpl. rewrite Hget.
    apply Z.eqb_eq in Hst. rewrite Hst. simpl.
    unfold bind at 1, response_json. rewrite Hbody.
    unfold bind at 1, py_get, ret. rewrite Hart. reflexivity. }
  rewrite Hrun. clear Hrun.
  destruct v as [|b|z|t|items|m]; try reflexivity.
  - destruct t as [|c r]; [reflexivity |].
    destruct (chars_cons c r) as (h & tl & E).
    exists (S (length tl)). split; [lia |].
    unfold py_len, py_iter. rewrite E. reflexivity.
  - by destruct (Hna items).
  - destruct m as [|[k x] m]; [reflexivity |].
    eexists. split; [| reflexivity]. simpl. lia.
Qed.

Lemma articles_not_a_list_witness :
  exists n,
    (0 < n)%nat
    /\ for_keywords (world_with_articles (JStr "ab")) Scenario.cfg
         ["sewing thread"] (Locals ∅ []) initial =
       (record (Print (MsgFetched n DAYS_FILTER))
          (asked Scenario.cfg "sewing thread" initial),
        inl AttributeError).
Proof.
  apply (articles_not_a_list (world_with_articles (JStr "ab")) Scenario.cfg
           "sewing thread" [] (Locals ∅ []) initial
           (Response 200 "body" (Some (JObj [("articles", JStr "ab")])))
           [("articles", JStr "ab")] (JStr "ab"));
    [reflexivity | reflexivity | reflexivity | reflexivity | discriminate].
Defined.

(** ** The search URL *)

Lemma plain_is_query c : plain_char c = true -> query_char c = true.
Proof.
  unfold plain_char, query_char, Urllib.always_safe. intros H.
  apply orb_true_iff in H as [H|H]; [by rewrite H |].
  apply Ascii.eqb_eq in H. subst c. reflexivity.
Qed.

Lemma quote_slash_query s :
  all_chars query_char (Urllib.quote s "/") = true.
Proof.
  unfold Urllib.quote.
  induction s as [|c r IH]; simpl; [reflexivity |].
  destruct (Urllib.always_safe (Bytes.byte_of_ascii c)
            || Urllib.in_safe "/" (Bytes.byte_of_ascii c)) eqn:E; simpl.
  - rewrite ascii_of_byte_of, IH, andb_true_r.
    unfold query_char. apply orb_true_iff in E as [E|E]; [by rewrite E |].
    unfold Urllib.in_safe in E. apply bool_decide_eq_true in E.
    simpl in E. apply list_elem_of_singleton in E. rewrite E.
    by rewrite orb_true_r.
  - by rewrite !plain_is_query, IH by apply hex_digit_plain.
Qed.

(** X16.  In the search URL the keyword is percent-encoded: the value of
    [q] is made of letters, digits, [_.-~/] and percent escapes only, so a
    keyword cannot add or end a parameter.  The API key is put in as it
    is. *)
Theorem keyword_is_percent_encoded (cfg : config) (kw : string) :
  exists q,
    news_url cfg kw =
      "https://newsapi.org/v2/everything?q=" +:+ q +:+ "&apiKey=" +:+
      NEWSAPI_KEY cfg +:+ "&pageSize=50&sortBy=publishedAt"
    /\ all_chars query_char q = true.
Proof.
  exists (Urllib.quote kw "/"). split; [reflexivity | apply quote_slash_query].
Qed.

(** ** The console report *)

Lemma print_items_exact i news s :
  print_items i news s =
    (State (clock_reads s) (draws s) (requests s)
       (trace s ++ imap (fun j n => Print (MsgItem (i + j) n)) news),
     inr tt).
Proof.
  revert i s. induction news as [|n news IH]; intros i s; simpl.
  - rewrite app_nil_r. by destruct s.
  - unfold bind at 1, print, emit. rewrite IH. simpl.
    rewrite <- app_assoc, Nat.add_0_r. simpl. do 4 f_equal.
    apply imap_ext. intros j x _. simpl. do 2 f_equal. lia.
Qed.

(** X17.  When [fetch_news] returns, the main block prints the number of
    selected items and then one line per item, in the order of the
    selection and numbered from 1, and hands the same list to
    [send_to_dingtalk]; it reads no clock and makes no request of its
    own. *)
Theorem console_lists_selection (w : World) (cfg : config) (s s1 : state)
    (sel : list news_item) :
  fetch_news w cfg s = (s1, inr sel) ->
  main w cfg s =
    send_to_dingtalk w cfg sel
      (State (clock_reads s1) (draws s1) (requests s1)
         (trace s1 ++ Print (MsgTotal (length sel))
            :: imap (fun i n => Print (MsgItem (S i) n)) sel)).
Proof.
  intros H. unfold main. unfold bind at 1. rewrite H.
  unfold bind at 1, print, emit. unfold bind at 1.
  rewrite print_items_exact. simpl. by rewrite <- app_assoc.
Qed.

Lemma console_lists_selection_witness :
  exists s1 sel,
    sel <> []
    /\ main (Scenario.world_of 200 Scenario.fresh) Scenario.cfg initial =
       send_to_dingtalk (Scenario.world_of 200 Scenario.fresh) Scenario.cfg sel
         (State (clock_reads s1) (draws s1) (requests s1)
            (trace s1 ++ Print (MsgTotal (length sel))
               :: imap (fun i n => Print (MsgItem (S i) n)) sel)).
Proof.
  set (w := Scenario.world_of 200 Scenario.fresh).
  set (run := fetch_news w Scenario.cfg initial).
  set (sel := match run.2 with inr l => l | inl _ => [] end).
  assert (Hrun : run = (run.1, inr sel)) by (vm_compute; reflexivity).
  exists run.1, sel. split; [vm_compute; discriminate |].
  exact (console_lists_selection w Scenario.cfg initial run.1 sel Hrun).
Defined.

(** * Checks of the library models *)

Example sha_constants :
  nth 0 SHA256.K 0 = 0x428a2f98 /\ nth 63 SHA256.K 0 = 0xc67178f2
  /\ SHA256.ha SHA256.H0 = 0x6a09e667 /\ SHA256.hh SHA256.H0 = 0x5be0cd19.
Proof. repeat split; reflexivity. Qed.

Example sha_abc :
  SHA256.digest (Bytes.to_list "abc") =
  [0xba; 0x78; 0x16; 0xbf; 0x8f; 0x01; 0xcf; 0xea; 0x41; 0x41; 0x40; 0xde;
   0x5d; 0xae; 0x22; 0x23; 0xb0; 0x03; 0x61; 0xa3; 0x96; 0x17; 0x7a; 0x9c;
   0xb4; 0x10; 0xff; 0x61; 0xf2; 0x00; 0x15; 0xad].
Proof. vm_compute. reflexivity. Qed.

(** RFC 4231, test case 2. *)
Example hmac_rfc4231 :
  Base64.b64encode
    (Bytes.of_list
       (HMAC.sha256 (Bytes.to_list "Jefe")
          (Bytes.to_list "what do ya want for nothing?")))
  = "W9zBRr9gdU5qBCQmCJV1x1oAPwidJzmDnexYuWTsOEM=".
Proof. vm_compute. reflexivity. Qed.

(** The golden signature before percent-encoding, and the encoder alone. *)
Example golden_base64 :
  Base64.b64encode
    (Bytes.of_list
       (HMAC.sha256 (Bytes.to_list "testsecret")
          (Bytes.to_list ("1700000000000" +:+ Str.newline +:+ "testsecret"))))
  = "d043yCasNZ+KC1N0lrVg+Aan0gEIKPvRfzRqMlUUwzk="
  /\ Urllib.quote_plus "a b+c/d=~" = "a+b%2Bc%2Fd%3D~"
  /\ Urllib.quote "sewing thread" "/" = "sewing%20thread"
  /\ Base64.b64encode "ab" = "YWI=" /\ Base64.b64encode "a" = "YQ==".
Proof. vm_compute. repeat split; reflexivity. Qed.

Example chars_demo : Str.chars "aé日b" = ["a"; "é"; "日"; "b"].
Proof. vm_compute. reflexivity. Qed.

Example strip_demo :
  Str.strip "  a b
 " = "a b"
  /\ Str.strip (Bytes.of_list [194; 160]) = ""
  /\ Str.strip (Bytes.of_list [32; 227; 128; 128] +:+ "a.png" +:+
                Bytes.of_list [226; 128; 168; 194; 133; 10]) = "a.png"
  /\ Str.strip (Bytes.of_list [226; 128; 139; 32; 225; 154; 128])
     = Bytes.of_list [226; 128; 139]
  /\ Str.strip (Bytes.of_list [195; 169; 226; 129; 159; 32]) = "é".
Proof. vm_compute. repeat split; reflexivity. Qed.

Example block_demo :
  block Scenario.bare_world 1
    (NewsItem (JStr "t") (JStr "") (JStr "u") ""
       ("2024-03-11 09:00" +:+ Bytes.of_list [227; 128; 128]) 0 (JStr "s") "")
  = "1. [t](u)" +:+ Str.newline +:+ Str.newline +:+ "🌐 来源：s" +:+
    Str.newline +:+ "🕘 时间：2024-03-11 09:00".
Proof. vm_compute. reflexivity. Qed.

Example iso_demo :
  Iso.strftime <$> Iso.strptime "2024-02-29T23:59:58Z" = Some "2024-02-29 23:59"
  /\ Iso.strftime <$> Iso.strptime "2023-12-31T00:00:00Z" = Some "2023-12-31 00:00"
  /\ Iso.strptime "2023-02-29T00:00:00Z" = None
  /\ Iso.ymd2ord 1970 1 1 = 719163.
Proof. vm_compute. repeat split; reflexivity. Qed.
